(** * BAML FFI C wrapper ([Sources/BamlFFIC/baml_ffi_c.c])

    A shallow embedding of the dlopen/dlsym shim around the BAML runtime
    library, and the properties its specification states about it.

    The wrapper is effectful C: it opens a dynamic library, allocates one
    [BamlLibrary] struct per load, resolves nine symbols into it, and
    forwards calls through the resolved function pointers, writing the
    returned buffers into caller-supplied output cells.  The embedding
    keeps that shape:

    - pointers, [size_t] and [uint32_t] values are integers ([Z]); the null
      pointer is [0].  A [const char*] that the wrapper hands to [dlopen]
      is an [option string] ([None] is the null pointer); every other
      pointer argument is only compared with null and passed on, so it
      stays an address;
    - the process state is a [world]: the OS library references held, the
      live [BamlLibrary] allocations, the caller's memory cells, and the
      trace of every external action performed so far;
    - the operating system and the loaded library are an environment
      [Env] of oracles that answer from the trace, so that their answers
      may depend on everything that has happened before;
    - each C function is a computation in the monad [M], whose failure
      ([None]) is C undefined behaviour: reading through a pointer that is
      not a live [BamlLibrary], writing through a null output pointer, or
      calling a null function pointer. *)

From stdpp Require Import gmap strings list fin_maps.

Open Scope Z_scope.

(** ** Data model *)

(** [BamlCBuffer] of [include/baml_ffi_c.h]: pointer and length. *)
Record BamlCBuffer := mkBuffer { buf_ptr : Z; buf_len : Z }.

(** [struct BamlLibrary]: the OS handle and the nine resolved addresses. *)
Record BamlLibrary := mkLibrary {
  handle : Z;
  create_runtime : Z;
  destroy_runtime : Z;
  call_function : Z;
  call_function_stream : Z;
  call_object_constructor : Z;
  call_object_method : Z;
  free_buffer : Z;
  version : Z;
  register_callbacks : Z
}.

(** What [calloc(1, sizeof(BamlLibrary))] hands back: all fields zero. *)
Definition zero_library : BamlLibrary := mkLibrary 0 0 0 0 0 0 0 0 0 0.

(** Assignments to single fields, [lib->f = v]. *)
Definition set_handle (v : Z) (L : BamlLibrary) : BamlLibrary :=
  mkLibrary v (create_runtime L) (destroy_runtime L) (call_function L)
    (call_function_stream L) (call_object_constructor L)
    (call_object_method L) (free_buffer L) (version L) (register_callbacks L).
Definition set_create_runtime (v : Z) (L : BamlLibrary) : BamlLibrary :=
  mkLibrary (handle L) v (destroy_runtime L) (call_function L)
    (call_function_stream L) (call_object_constructor L)
    (call_object_method L) (free_buffer L) (version L) (register_callbacks L).
Definition set_destroy_runtime (v : Z) (L : BamlLibrary) : BamlLibrary :=
  mkLibrary (handle L) (create_runtime L) v (call_function L)
    (call_function_stream L) (call_object_constructor L)
    (call_object_method L) (free_buffer L) (version L) (register_callbacks L).
Definition set_call_function (v : Z) (L : BamlLibrary) : BamlLibrary :=
  mkLibrary (handle L) (create_runtime L) (destroy_runtime L) v
    (call_function_stream L) (call_object_constructor L)
    (call_object_method L) (free_buffer L) (version L) (register_callbacks L).
Definition set_call_function_stream (v : Z) (L : BamlLibrary) : BamlLibrary :=
  mkLibrary (handle L) (create_runtime L) (destroy_runtime L) (call_function L)
    v (call_object_constructor L)
    (call_object_method L) (free_buffer L) (version L) (register_callbacks L).
Definition set_call_object_constructor (v : Z) (L : BamlLibrary) : BamlLibrary :=
  mkLibrary (handle L) (create_runtime L) (destroy_runtime L) (call_function L)
    (call_function_stream L) v
    (call_object_method L) (free_buffer L) (version L) (register_callbacks L).
Definition set_call_object_method (v : Z) (L : BamlLibrary) : BamlLibrary :=
  mkLibrary (handle L) (create_runtime L) (destroy_runtime L) (call_function L)
    (call_function_stream L) (call_object_constructor L)
    v (free_buffer L) (version L) (register_callbacks L).
Definition set_free_buffer (v : Z) (L : BamlLibrary) : BamlLibrary :=
  mkLibrary (handle L) (create_runtime L) (destroy_runtime L) (call_function L)
    (call_function_stream L) (call_object_constructor L)
    (call_object_method L) v (version L) (register_callbacks L).
Definition set_version (v : Z) (L : BamlLibrary) : BamlLibrary :=
  mkLibrary (handle L) (create_runtime L) (destroy_runtime L) (call_function L)
    (call_function_stream L) (call_object_constructor L)
    (call_object_method L) (free_buffer L) v (register_callbacks L).
Definition set_register_callbacks (v : Z) (L : BamlLibrary) : BamlLibrary :=
  mkLibrary (handle L) (create_runtime L) (destroy_runtime L) (call_function L)
    (call_function_stream L) (call_object_constructor L)
    (call_object_method L) (free_buffer L) (version L) v.

(** External actions, in the order they happen. *)
Inductive event :=
  | EvOpen (path : string) (h : Z)   (* dlopen(path, RTLD_NOW | RTLD_LOCAL) gave h *)
  | EvClose (h : Z)                  (* dlclose(h) *)
  | EvAlloc (a : Z)                  (* calloc gave a (0: out of memory) *)
  | EvFree (a : Z)                   (* free(a) *)
  | EvCall (fn : Z) (args : list Z). (* call through the function pointer fn *)

(** An event is a call into the loaded library. *)
Definition is_call (e : event) : bool :=
  match e with EvCall _ _ => true | _ => false end.

(** The calls into the loaded library recorded in a trace. *)
Definition calls (tr : list event) : list event := filter (fun e => is_call e = true) tr.

Record world := mkWorld {
  opened : list Z;             (* OS library references held, newest first;
                                  one entry per dlopen not yet closed *)
  heap : gmap Z BamlLibrary;   (* live wrapper allocations *)
  mem : gmap Z Z;              (* caller memory: the cells output pointers name *)
  trace : list event           (* external actions so far, oldest first *)
}.

(** The operating system and the loaded library.  Each oracle sees the trace
    so far.  [os_dlopen] and [os_dlsym] answer [0] for failure;
    [os_calloc_ok] tells whether the next allocation succeeds. *)
Record Env := mkEnv {
  os_dlopen : list event -> string -> Z;
  os_dlsym : list event -> Z -> string -> Z;
  os_calloc_ok : list event -> bool;
  lib_ret_buf : list event -> Z -> list Z -> BamlCBuffer;
  lib_ret_ptr : list event -> Z -> list Z -> Z
}.

(** ** The monad of C computations *)

Definition M (A : Type) : Type := world -> option (A * world).

Definition ret {A} (a : A) : M A := fun w => Some (a, w).

Definition bind {A B} (m : M A) (k : A -> M B) : M B :=
  fun w => match m w with
           | Some (a, w') => k a w'
           | None => None
           end.

Declare Scope c_scope.
Delimit Scope c_scope with C.
Notation "'let*' x ':=' m 'in' k" := (bind m (fun x => k))
  (at level 10, x name, m at level 100, k at level 200) : c_scope.
Notation "m ';;' k" := (bind m (fun _ => k))
  (at level 100, k at level 200, right associativity) : c_scope.
Open Scope c_scope.

(** [if (c) m;] *)
Definition when (c : bool) (m : M unit) : M unit := if c then m else ret tt.

(** C's short-circuit [a || b]. *)
Definition orM (a b : M bool) : M bool :=
  let* x := a in if x then ret true else b.
Infix "|||" := orM (at level 50, left associativity) : c_scope.

(** [!p] for a pointer. *)
Definition is_null (p : Z) : bool := p =? 0.

(** Drops the first occurrence of [h]: one reference released. *)
Fixpoint remove_first (h : Z) (l : list Z) : list Z :=
  match l with
  | [] => []
  | x :: l' => if x =? h then l' else x :: remove_first h l'
  end.

(** The address [calloc] returns: non-null and not live. *)
Definition fresh_addr (hp : gmap Z BamlLibrary) : Z :=
  fresh (({[0]} : gset Z) ∪ dom hp).

Definition log (e : event) (w : world) : world :=
  mkWorld (opened w) (heap w) (mem w) (trace w ++ [e]).

Section Wrapper.

Variable E : Env.

(** *** Primitives: libc, libdl, memory, indirect calls *)

Definition dlopen (path : string) : M Z := fun w =>
  let h := os_dlopen E (trace w) path in
  Some (h, mkWorld (if is_null h then opened w else h :: opened w)
                   (heap w) (mem w) (trace w ++ [EvOpen path h])).

(** [dlsym] only looks up: it leaves the world as it is. *)
Definition dlsym (h : Z) (name : string) : M Z := fun w =>
  Some (os_dlsym E (trace w) h name, w).

Definition dlclose (h : Z) : M unit := fun w =>
  Some (tt, mkWorld (remove_first h (opened w)) (heap w) (mem w)
                    (trace w ++ [EvClose h])).

Definition calloc : M Z := fun w =>
  if os_calloc_ok E (trace w) then
    let a := fresh_addr (heap w) in
    Some (a, mkWorld (opened w) (<[a := zero_library]> (heap w)) (mem w)
                     (trace w ++ [EvAlloc a]))
  else Some (0, log (EvAlloc 0) w).

Definition free (a : Z) : M unit := fun w =>
  if is_null a then Some (tt, w)
  else match heap w !! a with
       | Some _ => Some (tt, mkWorld (opened w) (delete a (heap w)) (mem w)
                                     (trace w ++ [EvFree a]))
       | None => None
       end.

(** [lib->f], reading. *)
Definition field (f : BamlLibrary -> Z) (lib : Z) : M Z := fun w =>
  match heap w !! lib with
  | Some L => Some (f L, w)
  | None => None
  end.

(** [lib->f = v], through the setter of [f]. *)
Definition assign (set : Z -> BamlLibrary -> BamlLibrary) (lib v : Z) : M unit := fun w =>
  match heap w !! lib with
  | Some L => Some (tt, mkWorld (opened w) (<[lib := set v L]> (heap w)) (mem w) (trace w))
  | None => None
  end.

(** [*p = v] on a caller cell. *)
Definition poke (p v : Z) : M unit := fun w =>
  if is_null p then None
  else Some (tt, mkWorld (opened w) (heap w) (<[p := v]> (mem w)) (trace w)).

(** Calls through a function pointer, by return type. *)
Definition call_buf (fn : Z) (args : list Z) : M BamlCBuffer := fun w =>
  if is_null fn then None
  else Some (lib_ret_buf E (trace w) fn args, log (EvCall fn args) w).

Definition call_ptr (fn : Z) (args : list Z) : M Z := fun w =>
  if is_null fn then None
  else Some (lib_ret_ptr E (trace w) fn args, log (EvCall fn args) w).

Definition call_void (fn : Z) (args : list Z) : M unit := fun w =>
  if is_null fn then None
  else Some (tt, log (EvCall fn args) w).

(** [!lib->f] *)
Definition absent (f : BamlLibrary -> Z) (lib : Z) : M bool :=
  let* a := field f lib in ret (is_null a).

(** *** The wrapper's functions *)

Definition load_symbols (lib : Z) : M bool :=
  let* bad := ret (is_null lib) ||| absent handle lib in
  if bad then ret false else
  let* h := field handle lib in
  let* s := dlsym h "create_baml_runtime" in assign set_create_runtime lib s;;
  let* h := field handle lib in
  let* s := dlsym h "destroy_baml_runtime" in assign set_destroy_runtime lib s;;
  let* h := field handle lib in
  let* s := dlsym h "call_function_from_c" in assign set_call_function lib s;;
  let* h := field handle lib in
  let* s := dlsym h "call_function_stream_from_c" in assign set_call_function_stream lib s;;
  let* h := field handle lib in
  let* s := dlsym h "call_object_constructor" in assign set_call_object_constructor lib s;;
  let* h := field handle lib in
  let* s := dlsym h "call_object_method" in assign set_call_object_method lib s;;
  let* h := field handle lib in
  let* s := dlsym h "free_buffer" in assign set_free_buffer lib s;;
  let* h := field handle lib in
  let* s := dlsym h "version" in assign set_version lib s;;
  let* h := field handle lib in
  let* s := dlsym h "register_callbacks" in assign set_register_callbacks lib s;;
  let* c := field create_runtime lib in
  let* f := field call_function lib in
  ret (negb (is_null c) && negb (is_null f)).

Definition baml_library_load (path : option string) : M Z :=
  match path with
  | None => ret 0
  | Some p =>
    let* h := dlopen p in
    if is_null h then ret 0 else
    let* lib := calloc in
    if is_null lib then dlclose h;; ret 0 else
    assign set_handle lib h;;
    let* ok := load_symbols lib in
    if negb ok then dlclose h;; free lib;; ret 0
    else ret lib
  end.

(** The [#if] of [baml_library_load_default]: the build target. *)
Inductive platform := Apple | Linux | OtherPlatform.

(** [paths[]], with its terminating [NULL]. *)
Definition paths (plat : platform) : list (option string) :=
  match plat with
  | Apple =>
      [ Some "libbaml_ffi.dylib";
        Some "./libbaml_ffi.dylib";
        Some "./lib/libbaml_ffi.dylib";
        Some "/usr/local/lib/libbaml_ffi.dylib";
        Some "BamlFFI.framework/BamlFFI";
        None ]
  | Linux =>
      [ Some "libbaml_ffi.so";
        Some "./libbaml_ffi.so";
        Some "./lib/libbaml_ffi.so";
        Some "/usr/local/lib/libbaml_ffi.so";
        Some "/usr/lib/libbaml_ffi.so";
        None ]
  | OtherPlatform => [ None ]
  end.

(** [for (i = 0; paths[i] != NULL; i++)], on the entries from [i] on.
    Running off the array without meeting [NULL] would read out of bounds. *)
Fixpoint probe (ps : list (option string)) : M Z :=
  match ps with
  | [] => fun _ => None
  | None :: _ => ret 0
  | Some p :: rest =>
      let* lib := baml_library_load (Some p) in
      if negb (is_null lib) then ret lib else probe rest
  end.

Definition baml_library_load_default (plat : platform) : M Z :=
  probe (paths plat).

Definition baml_library_unload (lib : Z) : M unit :=
  if is_null lib then ret tt else
  let* h := field handle lib in
  when (negb (is_null h)) (let* h := field handle lib in dlclose h);;
  free lib.

Definition baml_library_is_loaded (lib : Z) : M bool :=
  if is_null lib then ret false else
  let* h := field handle lib in
  ret (negb (is_null h)).

(** The failure branch shared by the buffer-returning operations:
    [if (out_ptr) *out_ptr = NULL; if (out_len) *out_len = 0;] *)
Definition write_null (out_ptr out_len : Z) : M unit :=
  when (negb (is_null out_ptr)) (poke out_ptr 0);;
  when (negb (is_null out_len)) (poke out_len 0).

(** [*out_ptr = result.ptr; *out_len = result.len;] *)
Definition write_result (result : BamlCBuffer) (out_ptr out_len : Z) : M unit :=
  poke out_ptr (buf_ptr result);;
  poke out_len (buf_len result).

Definition baml_version (lib out_ptr out_len : Z) : M unit :=
  let* bad := ret (is_null lib) ||| absent version lib
              ||| ret (is_null out_ptr) ||| ret (is_null out_len) in
  if bad then write_null out_ptr out_len else
  let* f := field version lib in
  let* result := call_buf f [] in
  write_result result out_ptr out_len.

Definition baml_create_runtime
    (lib root_path src_files_json env_vars_json : Z) : M Z :=
  let* bad := ret (is_null lib) ||| absent create_runtime lib in
  if bad then ret 0 else
  let* f := field create_runtime lib in
  call_ptr f [root_path; src_files_json; env_vars_json].

Definition baml_destroy_runtime (lib runtime : Z) : M unit :=
  let* bad := ret (is_null lib) ||| absent destroy_runtime lib
              ||| ret (is_null runtime) in
  if bad then ret tt else
  let* f := field destroy_runtime lib in
  call_void f [runtime].

Definition baml_call_function
    (lib runtime function_name encoded_args args_len call_id
     out_ptr out_len : Z) : M unit :=
  let* bad := ret (is_null lib) ||| absent call_function lib
              ||| ret (is_null runtime)
              ||| ret (is_null out_ptr) ||| ret (is_null out_len) in
  if bad then write_null out_ptr out_len else
  let* f := field call_function lib in
  let* result := call_buf f [runtime; function_name; encoded_args; args_len; call_id] in
  write_result result out_ptr out_len.

Definition baml_call_function_stream
    (lib runtime function_name encoded_args args_len call_id
     out_ptr out_len : Z) : M unit :=
  let* bad := ret (is_null lib) ||| absent call_function_stream lib
              ||| ret (is_null runtime)
              ||| ret (is_null out_ptr) ||| ret (is_null out_len) in
  if bad then write_null out_ptr out_len else
  let* f := field call_function_stream lib in
  let* result := call_buf f [runtime; function_name; encoded_args; args_len; call_id] in
  write_result result out_ptr out_len.

Definition baml_call_object_constructor
    (lib encoded_args args_len out_ptr out_len : Z) : M unit :=
  let* bad := ret (is_null lib) ||| absent call_object_constructor lib
              ||| ret (is_null out_ptr) ||| ret (is_null out_len) in
  if bad then write_null out_ptr out_len else
  let* f := field call_object_constructor lib in
  let* result := call_buf f [encoded_args; args_len] in
  write_result result out_ptr out_len.

Definition baml_call_object_method
    (lib runtime encoded_args args_len out_ptr out_len : Z) : M unit :=
  let* bad := ret (is_null lib) ||| absent call_object_method lib
              ||| ret (is_null runtime)
              ||| ret (is_null out_ptr) ||| ret (is_null out_len) in
  if bad then write_null out_ptr out_len else
  let* f := field call_object_method lib in
  let* result := call_buf f [runtime; encoded_args; args_len] in
  write_result result out_ptr out_len.

Definition baml_free_buffer (lib ptr len : Z) : M unit :=
  let* bad := ret (is_null lib) ||| absent free_buffer lib
              ||| ret (is_null ptr) in
  if bad then ret tt else
  let* f := field free_buffer lib in
  call_void f [ptr; len].

Definition baml_register_callbacks (lib result_cb error_cb tick_cb : Z) : M unit :=
  let* bad := ret (is_null lib) ||| absent register_callbacks lib in
  if bad then ret tt else
  let* f := field register_callbacks lib in
  call_void f [result_cb; error_cb; tick_cb].

(** ** Vocabulary of the specification

    Definitions that describe, from the outside, what the functions above
    are expected to do.  None of them is used by the functions themselves. *)

(** The world with the struct at [lib] replaced by [L]. *)
Definition with_lib (w : world) (lib : Z) (L : BamlLibrary) : world :=
  mkWorld (opened w) (<[lib := L]> (heap w)) (mem w) (trace w).

(** What [load_symbols] leaves in the struct of handle [h], by the answers
    [dlsym] gives after the trace [tr]. *)
Definition resolved (tr : list event) (h : Z) : BamlLibrary :=
  mkLibrary h
    (os_dlsym E tr h "create_baml_runtime")
    (os_dlsym E tr h "destroy_baml_runtime")
    (os_dlsym E tr h "call_function_from_c")
    (os_dlsym E tr h "call_function_stream_from_c")
    (os_dlsym E tr h "call_object_constructor")
    (os_dlsym E tr h "call_object_method")
    (os_dlsym E tr h "free_buffer")
    (os_dlsym E tr h "version")
    (os_dlsym E tr h "register_callbacks").

(** The two mandatory symbols are there. *)
Definition mandatory (L : BamlLibrary) : bool :=
  negb (is_null (create_runtime L)) && negb (is_null (call_function L)).

(** For a load of [p] in the world [w]: the answer of [dlopen], the trace
    after it, whether the wrapper allocation succeeds, the trace after that,
    and the symbol table then resolved. *)
Definition open_answer (w : world) (p : string) : Z := os_dlopen E (trace w) p.
Definition trace_opened (w : world) (p : string) : list event :=
  trace w ++ [EvOpen p (open_answer w p)].
Definition alloc_ok (w : world) (p : string) : bool :=
  os_calloc_ok E (trace_opened w p).
Definition trace_allocated (w : world) (p : string) : list event :=
  trace_opened w p ++ [EvAlloc (fresh_addr (heap w))].
Definition table (w : world) (p : string) : BamlLibrary :=
  resolved (trace_allocated w p) (open_answer w p).

(** The four ways a load of a non-null path ends: open failed; allocation
    failed; a mandatory symbol is missing; loaded. *)
Definition load_spec (p : string) (w : world) : Z * world :=
  let h := open_answer w p in
  let a := fresh_addr (heap w) in
  if is_null h then
    (0, mkWorld (opened w) (heap w) (mem w) (trace_opened w p))
  else if negb (alloc_ok w p) then
    (0, mkWorld (opened w) (heap w) (mem w)
          (trace_opened w p ++ [EvAlloc 0; EvClose h]))
  else if negb (mandatory (table w p)) then
    (0, mkWorld (opened w) (heap w) (mem w)
          (trace_allocated w p ++ [EvClose h; EvFree a]))
  else
    (a, mkWorld (h :: opened w) (<[a := table w p]> (heap w)) (mem w)
          (trace_allocated w p)).

(** The candidate paths of a build target: [paths] up to its [NULL]. *)
Fixpoint until_null (ps : list (option string)) : list string :=
  match ps with
  | Some p :: rest => p :: until_null rest
  | _ => []
  end.
Definition candidates (plat : platform) : list string := until_null (paths plat).

(** [baml_library_load] fails on every path of [ps], tried in order from
    the world [w]; the result is the world after the last attempt. *)
Fixpoint fails_on (ps : list string) (w : world) : option world :=
  match ps with
  | [] => Some w
  | p :: rest =>
      match baml_library_load (Some p) w with
      | Some (lib, w1) => if is_null lib then fails_on rest w1 else None
      | None => None
      end
  end.

(** [lib] names a fully loaded library in [w]: a live wrapper whose OS
    handle is non-null and held open, with both mandatory symbols. *)
Definition fully_loaded (w : world) (lib : Z) : Prop :=
  exists L, heap w !! lib = Some L /\ handle L <> 0 /\
            create_runtime L <> 0 /\ call_function L <> 0 /\
            handle L ∈ opened w.

(** [lib] is a pointer a caller may pass: null, or a live wrapper. *)
Definition handle_ok (w : world) (lib : Z) : Prop :=
  lib = 0 \/ is_Some (heap w !! lib).

(** Validation fails for an operation that needs the symbol [f] and the
    arguments [required]: the handle is null, or the symbol was not
    resolved, or a required argument is null. *)
Definition invalid (w : world) (lib : Z) (f : BamlLibrary -> Z)
    (required : list Z) : Prop :=
  lib = 0 \/ exists L, heap w !! lib = Some L /\ (f L = 0 \/ 0 ∈ required).

(** Validation passes: [lib] is the live wrapper [L], its symbol [f] is
    resolved, and no pointer of [required] is null. *)
Definition valid (w : world) (lib : Z) (L : BamlLibrary)
    (f : BamlLibrary -> Z) (required : list Z) : Prop :=
  lib <> 0 /\ heap w !! lib = Some L /\ f L <> 0 /\ 0 ∉ required.

(** [*p = v] when [p] is not null, nothing otherwise. *)
Definition set_cell (p v : Z) (m : gmap Z Z) : gmap Z Z :=
  if is_null p then m else <[p := v]> m.

(** The outcome "not attempted" of a buffer-returning operation run in [w]:
    it returns; nothing external happened (no library symbol invoked, no
    OS action); the wrapper state is as before; every non-null output
    location holds null / zero; no other cell changed, the one at the null
    address included. *)
Definition not_attempted (r : option (unit * world)) (w : world)
    (out_ptr out_len : Z) : Prop :=
  exists w', r = Some (tt, w') /\
    trace w' = trace w /\ opened w' = opened w /\ heap w' = heap w /\
    (out_ptr <> 0 -> mem w' !! out_ptr = Some 0) /\
    (out_len <> 0 -> mem w' !! out_len = Some 0) /\
    (forall a, a <> out_ptr -> a <> out_len -> mem w' !! a = mem w !! a) /\
    mem w' !! 0 = mem w !! 0.

(** The outcome "forwarded" of a buffer-returning operation run in [w]:
    it returns; the one external action is the call of [fn] on [args]; the
    buffer the library answered is stored, pointer then length, and
    nothing else changed. *)
Definition forwarded (r : option (unit * world)) (w : world)
    (fn : Z) (args : list Z) (out_ptr out_len : Z) : Prop :=
  let b := lib_ret_buf E (trace w) fn args in
  exists w', r = Some (tt, w') /\
    trace w' = trace w ++ [EvCall fn args] /\
    opened w' = opened w /\ heap w' = heap w /\
    mem w' = <[out_len := buf_len b]> (<[out_ptr := buf_ptr b]> (mem w)) /\
    mem w' !! out_len = Some (buf_len b) /\
    (out_ptr <> out_len -> mem w' !! out_ptr = Some (buf_ptr b)).

(** The success branch of a buffer-returning operation: the call through
    the resolved symbol, then the two stores. *)
Definition call_and_store (fn : Z) (args : list Z) (out_ptr out_len : Z) : M unit :=
  let* result := call_buf fn args in
  write_result result out_ptr out_len.

(** The outcome of an operation that is safe on a handle: it returns; the
    OS references and the wrappers are as before; and it performed either
    no external action or exactly one, a call through a non-null function
    pointer. *)
Definition at_most_one_call {A} (r : option (A * world)) (w : world) : Prop :=
  exists a w', r = Some (a, w') /\
    opened w' = opened w /\ heap w' = heap w /\
    (trace w' = trace w \/
     exists fn args, fn <> 0 /\ trace w' = trace w ++ [EvCall fn args]).

(** The library exposes no symbol besides the two mandatory ones. *)
Definition only_mandatory : Prop :=
  forall tr h n,
    n <> "create_baml_runtime"%string -> n <> "call_function_from_c"%string ->
    os_dlsym E tr h n = 0.

End Wrapper.

(** *** A stub library with only the two mandatory symbols

    The library lives at ["./libbaml_ffi.so"]; [dlopen] answers the handle
    [100] for it and fails elsewhere; only [create_baml_runtime] ([201])
    and [call_function_from_c] ([202]) resolve; allocation succeeds; every
    call answers the buffer [(777, number of arguments)] or the runtime
    [555]. *)
Definition stub_env : Env :=
  mkEnv (fun _ p => if String.eqb p "./libbaml_ffi.so" then 100 else 0)
        (fun _ h n =>
           if (h =? 100) && String.eqb n "create_baml_runtime" then 201
           else if (h =? 100) && String.eqb n "call_function_from_c" then 202
           else 0)
        (fun _ => true)
        (fun _ fn args => mkBuffer 777 (Z.of_nat (length args)))
        (fun _ fn args => 555).

(** A library that resolves all nine symbols, [201] to [209]. *)
Definition full_env : Env :=
  mkEnv (fun _ p => if String.eqb p "./libbaml_ffi.so" then 100 else 0)
        (fun _ h n =>
           if negb (h =? 100) then 0
           else if String.eqb n "create_baml_runtime" then 201
           else if String.eqb n "call_function_from_c" then 202
           else if String.eqb n "destroy_baml_runtime" then 203
           else if String.eqb n "call_function_stream_from_c" then 204
           else if String.eqb n "call_object_constructor" then 205
           else if String.eqb n "call_object_method" then 206
           else if String.eqb n "free_buffer" then 207
           else if String.eqb n "version" then 208
           else if String.eqb n "register_callbacks" then 209
           else 0)
        (fun _ => true)
        (fun _ fn args => mkBuffer 777 (Z.of_nat (length args)))
        (fun _ fn args => 555).

(** A fresh process: nothing opened, nothing allocated, empty memory. *)
Definition empty_world : world := mkWorld [] ∅ ∅ [].

(** The struct and the world after loading the stub library in a fresh
    process: the wrapper is at address [1]. *)
Definition stub_library : BamlLibrary := mkLibrary 100 201 0 202 0 0 0 0 0 0.
Definition stub_loaded : world :=
  mkWorld [100] {[ 1 := stub_library ]} ∅
          [EvOpen "./libbaml_ffi.so" 100; EvAlloc 1].

(** The same for the full library. *)
Definition full_library : BamlLibrary :=
  mkLibrary 100 201 203 202 204 205 206 207 208 209.
Definition full_loaded : world :=
  mkWorld [100] {[ 1 := full_library ]} ∅
          [EvOpen "./libbaml_ffi.so" 100; EvAlloc 1].

(** The world after loading the stub library twice in a fresh process (the
    wrappers are at [1] and [2] and share the OS handle [100]), and the
    world after then unloading the first handle. *)
Definition stub_twice : world :=
  mkWorld [100; 100] (<[2 := stub_library]> {[ 1 := stub_library ]}) ∅
          [EvOpen "./libbaml_ffi.so" 100; EvAlloc 1;
           EvOpen "./libbaml_ffi.so" 100; EvAlloc 2].
Definition stub_second_only : world :=
  mkWorld [100] {[ 2 := stub_library ]} ∅
          [EvOpen "./libbaml_ffi.so" 100; EvAlloc 1;
           EvOpen "./libbaml_ffi.so" 100; EvAlloc 2;
           EvClose 100; EvFree 1].

(** *** The process as a state machine

    One step of a process that uses the wrapper: a call of one of its
    thirteen functions that returns (a call that is undefined behaviour
    is no step), or the caller writing to its own memory. *)
Inductive api_step (E : Env) (w w' : world) : Prop :=
  | step_load path lib :
      baml_library_load E path w = Some (lib, w') -> api_step E w w'
  | step_load_default plat lib :
      baml_library_load_default E plat w = Some (lib, w') -> api_step E w w'
  | step_unload lib :
      baml_library_unload lib w = Some (tt, w') -> api_step E w w'
  | step_is_loaded lib b :
      baml_library_is_loaded lib w = Some (b, w') -> api_step E w w'
  | step_version lib out_ptr out_len :
      baml_version E lib out_ptr out_len w = Some (tt, w') -> api_step E w w'
  | step_create_runtime lib root_path src_files_json env_vars_json r :
      baml_create_runtime E lib root_path src_files_json env_vars_json w
      = Some (r, w') -> api_step E w w'
  | step_destroy_runtime lib runtime :
      baml_destroy_runtime lib runtime w = Some (tt, w') -> api_step E w w'
  | step_call_function lib runtime name args len id out_ptr out_len :
      baml_call_function E lib runtime name args len id out_ptr out_len w
      = Some (tt, w') -> api_step E w w'
  | step_call_function_stream lib runtime name args len id out_ptr out_len :
      baml_call_function_stream E lib runtime name args len id
        out_ptr out_len w = Some (tt, w') -> api_step E w w'
  | step_call_object_constructor lib args len out_ptr out_len :
      baml_call_object_constructor E lib args len out_ptr out_len w
      = Some (tt, w') -> api_step E w w'
  | step_call_object_method lib runtime args len out_ptr out_len :
      baml_call_object_method E lib runtime args len out_ptr out_len w
      = Some (tt, w') -> api_step E w w'
  | step_free_buffer lib ptr len :
      baml_free_buffer lib ptr len w = Some (tt, w') -> api_step E w w'
  | step_register_callbacks lib result_cb error_cb tick_cb :
      baml_register_callbacks lib result_cb error_cb tick_cb w
      = Some (tt, w') -> api_step E w w'
  | step_caller m :
      w' = mkWorld (opened w) (heap w) m (trace w) -> api_step E w w'.

(** The worlds a process reaches from a fresh start. *)
Inductive reachable (E : Env) : world -> Prop :=
  | reach_start : reachable E empty_world
  | reach_step w w' : reachable E w -> api_step E w w' -> reachable E w'.

(** The number of live wrappers whose OS handle is [h]. *)
Definition wrappers_of (h : Z) (hp : gmap Z BamlLibrary) : nat :=
  size (filter (fun kv : Z * BamlLibrary => handle kv.2 = h) hp).

(** The bookkeeping of a world is consistent: no wrapper lives at the null
    address; every live wrapper has a non-null OS handle and both
    mandatory symbols; and the process holds at least as many references
    to each OS handle as there are live wrappers with that handle. *)
Definition consistent (w : world) : Prop :=
  heap w !! 0 = None /\
  (forall lib L, heap w !! lib = Some L ->
     handle L <> 0 /\ create_runtime L <> 0 /\ call_function L <> 0) /\
  (forall h, (wrappers_of h (heap w) <= count_occ Z.eq_dec (opened w) h)%nat).

(** A computation that leaves the OS references and the wrappers alone. *)
Definition frames {A} (m : M A) : Prop :=
  forall w a w', m w = Some (a, w') ->
    heap w' = heap w /\ opened w' = opened w.

(** ** Running the monad *)

Lemma bind_some {A B} (m : M A) (k : A -> M B) w a w' :
  m w = Some (a, w') -> bind m k w = k a w'.
Proof. intros H. unfold bind. now rewrite H. Qed.

Lemma orM_false (a b : M bool) w w' :
  a w = Some (false, w') -> orM a b w = b w'.
Proof. intros H. unfold orM. now rewrite (bind_some _ _ _ _ _ H). Qed.

Lemma orM_ret (g : M bool) (b : bool) w x :
  g w = Some (x, w) -> orM g (ret b) w = Some (x || b, w).
Proof.
  intros H. unfold orM. rewrite (bind_some _ _ _ _ _ H). now destruct x.
Qed.

Lemma is_null_false p : p <> 0 -> is_null p = false.
Proof. intros H. unfold is_null. now apply Z.eqb_neq. Qed.

Lemma is_null_spec p : reflect (p = 0) (is_null p).
Proof. unfold is_null. apply Z.eqb_spec. Qed.

Lemma field_live f lib w L :
  heap w !! lib = Some L -> field f lib w = Some (f L, w).
Proof. intros H. unfold field. now rewrite H. Qed.

Lemma absent_live f lib w L :
  heap w !! lib = Some L -> absent f lib w = Some (is_null (f L), w).
Proof. intros H. unfold absent. now rewrite (bind_some _ _ _ _ _ (field_live f _ _ _ H)). Qed.

Lemma with_lib_live w lib L : heap (with_lib w lib L) !! lib = Some L.
Proof. apply lookup_insert_eq. Qed.

Lemma assign_with_lib set lib v w L :
  assign set lib v (with_lib w lib L) = Some (tt, with_lib w lib (set v L)).
Proof.
  unfold assign. rewrite with_lib_live. unfold with_lib. simpl.
  now rewrite insert_insert_eq.
Qed.

Lemma fresh_addr_nonnull hp : fresh_addr hp <> 0.
Proof.
  unfold fresh_addr. intros H.
  pose proof (is_fresh (({[0]} : gset Z) ∪ dom hp)) as Hf.
  rewrite H in Hf. set_solver.
Qed.

Lemma fresh_addr_free hp : hp !! fresh_addr hp = None.
Proof.
  unfold fresh_addr.
  pose proof (is_fresh (({[0]} : gset Z) ∪ dom hp)) as Hf.
  apply not_elem_of_dom. set_solver.
Qed.

Lemma remove_first_head h l : remove_first h (h :: l) = l.
Proof. simpl. now rewrite Z.eqb_refl. Qed.

(** ** Loading *)

Section Loading.

Variable E : Env.

Lemma load_symbols_run w lib L :
  lib <> 0 -> handle L <> 0 ->
  load_symbols E lib (with_lib w lib L) =
  Some (mandatory (resolved E (trace w) (handle L)),
        with_lib w lib (resolved E (trace w) (handle L))).
Proof.
  intros Hlib Hh. unfold load_symbols.
  rewrite (bind_some _ _ _ false (with_lib w lib L)).
  2:{ rewrite (orM_false _ _ _ (with_lib w lib L)).
      - rewrite (absent_live _ _ _ L) by apply with_lib_live.
        now rewrite (is_null_false _ Hh).
      - unfold ret. now rewrite (is_null_false _ Hlib). }
  repeat first
    [ rewrite (bind_some _ _ _ _ _ (field_live _ _ _ _ (with_lib_live _ _ _)))
    | rewrite (bind_some _ _ _ _ _ (assign_with_lib _ _ _ _ _))
    | rewrite (bind_some (dlsym E _ _) _ _ _ _ eq_refl) ].
  reflexivity.
Qed.

(** The code of [baml_library_load] does what [load_spec] says. *)
Lemma load_refines p w :
  baml_library_load E (Some p) w = Some (load_spec E p w).
Proof.
  unfold baml_library_load, load_spec.
  rewrite (bind_some (dlopen E p) _ w _ _ eq_refl).
  fold (open_answer E w p). fold (trace_opened E w p).
  destruct (is_null_spec (open_answer E w p)) as [H0 | Hh].
  { reflexivity. }
  unfold bind at 1, calloc; cbn [trace opened heap mem].
  unfold alloc_ok.
  destruct (os_calloc_ok E (trace_opened E w p)) eqn:Hok; cbn [negb]; cbv beta iota.
  { fold (trace_allocated E w p).
    rewrite (is_null_false _ (fresh_addr_nonnull (heap w))).
    set (a := fresh_addr (heap w)).
    set (w2 := mkWorld (open_answer E w p :: opened w) (heap w) (mem w)
                       (trace_allocated E w p)).
    change (mkWorld _ (<[a:=zero_library]> (heap w)) _ _) with (with_lib w2 a zero_library).
    rewrite (bind_some _ _ _ _ _ (assign_with_lib _ _ _ _ _)).
    rewrite (bind_some _ _ _ _ _
               (load_symbols_run w2 a (set_handle (open_answer E w p) zero_library)
                  (fresh_addr_nonnull _) Hh)).
    change (handle (set_handle (open_answer E w p) zero_library)) with (open_answer E w p).
    change (resolved E (trace w2) (open_answer E w p)) with (table E w p).
    destruct (mandatory (table E w p)); cbn [negb].
    - reflexivity.
    - subst w2 a.
      unfold bind, dlclose, free, ret; cbn [trace opened heap mem with_lib].
      rewrite (is_null_false _ (fresh_addr_nonnull (heap w))).
      rewrite lookup_insert_eq, remove_first_head.
      rewrite delete_insert_eq, (delete_id _ _ (fresh_addr_free (heap w))).
      now rewrite <- app_assoc. }
  { unfold log, is_null; cbn [Z.eqb].
    unfold bind, dlclose, ret; cbn [trace opened heap mem].
    rewrite remove_first_head. now rewrite <- app_assoc. }
Qed.

End Loading.

Lemma mandatory_true L :
  mandatory L = true <-> create_runtime L <> 0 /\ call_function L <> 0.
Proof.
  unfold mandatory.
  destruct (is_null_spec (create_runtime L)), (is_null_spec (call_function L));
    simpl; intuition congruence.
Qed.

Lemma mandatory_false L :
  mandatory L = false <-> create_runtime L = 0 \/ call_function L = 0.
Proof.
  unfold mandatory.
  destruct (is_null_spec (create_runtime L)), (is_null_spec (call_function L));
    simpl; intuition congruence.
Qed.

(** A load that returns a handle: what the world then holds. *)
Lemma load_returns_handle E path w lib w' :
  baml_library_load E path w = Some (lib, w') -> lib <> 0 ->
  exists p, path = Some p /\
    open_answer E w p <> 0 /\ mandatory (table E w p) = true /\
    lib = fresh_addr (heap w) /\
    w' = mkWorld (open_answer E w p :: opened w)
                 (<[lib := table E w p]> (heap w)) (mem w)
                 (trace_allocated E w p).
Proof.
  destruct path as [p |]; [| intros [= <- <-]; congruence].
  rewrite load_refines. unfold load_spec.
  destruct (is_null_spec (open_answer E w p)); [intros [= <- <-]; congruence |].
  destruct (alloc_ok E w p); cbn [negb]; [| intros [= <- <-]; congruence].
  destruct (mandatory (table E w p)) eqn:Hm; cbn [negb]; [| intros [= <- <-]; congruence].
  intros [= <- <-] _. exists p. repeat split; auto.
Qed.

(** ** The claims *)

(** C9. [baml_library_load] called with a null path returns null at once:
    the world, its trace included, is as before, so no [dlopen] was
    attempted (a [dlopen] of the null path would have answered a handle to
    the host executable). *)
Theorem load_null_path (E : Env) (w : world) :
  baml_library_load E None w = Some (0, w).
Proof. unfold baml_library_load, ret. reflexivity. Qed.

(** C2. A load of the path [p] always returns, and the handle it returns
    is non-null exactly when [dlopen] succeeded, the wrapper allocation
    succeeded, and both mandatory symbols ([create_baml_runtime],
    [call_function_from_c]) resolved to non-null addresses.  When the
    open and the allocation succeeded but a mandatory symbol is missing,
    the last two external actions are [dlclose] of the handle just opened
    and [free] of the wrapper just allocated; when the allocation failed,
    the handle just opened is closed; and whenever null is returned the
    process holds the same OS references and the same wrapper allocations
    as before the call. *)
Theorem load_succeeds_iff (E : Env) (p : string) (w : world) :
  exists lib w',
    baml_library_load E (Some p) w = Some (lib, w') /\
    (lib <> 0 <->
       open_answer E w p <> 0 /\ alloc_ok E w p = true /\
       create_runtime (table E w p) <> 0 /\
       call_function (table E w p) <> 0) /\
    (open_answer E w p <> 0 -> alloc_ok E w p = true ->
     create_runtime (table E w p) = 0 \/ call_function (table E w p) = 0 ->
       lib = 0 /\
       trace w' = trace_allocated E w p ++
                  [EvClose (open_answer E w p); EvFree (fresh_addr (heap w))]) /\
    (open_answer E w p <> 0 -> alloc_ok E w p = false ->
       lib = 0 /\
       trace w' = trace_opened E w p ++
                  [EvAlloc 0; EvClose (open_answer E w p)]) /\
    (lib = 0 -> opened w' = opened w /\ heap w' = heap w) /\
    mem w' = mem w.
Proof.
  exists (fst (load_spec E p w)), (snd (load_spec E p w)).
  split; [rewrite load_refines; now destruct (load_spec E p w) |].
  unfold load_spec.
  pose proof (fresh_addr_nonnull (heap w)) as Ha.
  destruct (is_null_spec (open_answer E w p)) as [H0 | Hh]; cbn [fst snd].
  { repeat split; try tauto; intros; tauto. }
  destruct (alloc_ok E w p); cbn [negb fst snd].
  2:{ repeat split; try tauto; try congruence; intros; intuition congruence. }
  destruct (mandatory (table E w p)) eqn:Hm; cbn [negb fst snd].
  - apply mandatory_true in Hm. cbn [trace opened heap mem].
    repeat split; try tauto; try congruence; intros; intuition congruence.
  - apply mandatory_false in Hm. cbn [trace opened heap mem].
    repeat split; try tauto; try congruence; intros; intuition congruence.
Qed.

(** ** Probing the default locations *)

Lemma paths_candidates plat : paths plat = map Some (candidates plat) ++ [None].
Proof. destruct plat; reflexivity. Qed.

Lemma fails_on_app E pre post w :
  fails_on E (pre ++ post) w =
  match fails_on E pre w with
  | Some wi => fails_on E post wi
  | None => None
  end.
Proof.
  revert w. induction pre as [| p pre IH]; intros w; cbn [app fails_on].
  { now destruct (fails_on E post w). }
  destruct (baml_library_load E (Some p) w) as [[lib w1] |]; [| reflexivity].
  destruct (is_null lib); [apply IH | reflexivity].
Qed.

(** The loop over a null-terminated array of paths: either every load
    failed, or the result is that of the first load that did not. *)
Lemma probe_spec E ps w :
  exists lib w',
    probe E (map Some ps ++ [None]) w = Some (lib, w') /\
    ((lib = 0 /\ fails_on E ps w = Some w') \/
     (lib <> 0 /\ exists pre p post wi,
        ps = pre ++ p :: post /\ fails_on E pre w = Some wi /\
        baml_library_load E (Some p) wi = Some (lib, w'))).
Proof.
  revert w. induction ps as [| p ps IH]; intros w.
  - exists 0, w. split; [reflexivity | left; split; reflexivity].
  - cbn [map app probe fails_on].
    pose proof (load_refines E p w) as Hload.
    destruct (load_spec E p w) as [lib1 w1].
    rewrite (bind_some _ _ _ _ _ Hload), Hload.
    destruct (is_null_spec lib1) as [-> | Hne]; cbn [negb].
    + destruct (IH w1) as (lib & w' & Hrun & Hcases).
      exists lib, w'. split; [exact Hrun |].
      destruct Hcases as [[-> Hf] | (Hlib & pre & q & post & wi & -> & Hpre & Hq)].
      * left. split; [reflexivity | exact Hf].
      * right. split; [exact Hlib |].
        exists (p :: pre), q, post, wi. split; [reflexivity |].
        split; [| exact Hq]. cbn [fails_on]. rewrite Hload. exact Hpre.
    + exists lib1, w1. split; [reflexivity |].
      right. split; [exact Hne |].
      exists [], p, ps, w. repeat split; auto.
Qed.

(** [baml_library_load_default], by what its probing did. *)
Lemma load_default_run E plat w :
  exists lib w',
    baml_library_load_default E plat w = Some (lib, w') /\
    ((lib = 0 /\ fails_on E (candidates plat) w = Some w') \/
     (lib <> 0 /\ exists pre p post wi,
        candidates plat = pre ++ p :: post /\ fails_on E pre w = Some wi /\
        baml_library_load E (Some p) wi = Some (lib, w'))).
Proof.
  unfold baml_library_load_default. rewrite paths_candidates.
  apply probe_spec.
Qed.

(** C4. [baml_library_load_default] always returns.  It returns null
    exactly when [baml_library_load] fails on every candidate of the build
    target, tried in the listed order, each in the world the previous
    attempts left.  Otherwise some candidate [p] is the first on which the
    load succeeds: the load failed on all the candidates before [p], and
    the handle and the world returned are those of [baml_library_load] on
    [p].  The candidates are the entries of [paths] before its [NULL]. *)
Theorem load_default_first_success (E : Env) (plat : platform) (w : world) :
  paths plat = map Some (candidates plat) ++ [None] /\
  exists lib w',
    baml_library_load_default E plat w = Some (lib, w') /\
    (lib = 0 <-> is_Some (fails_on E (candidates plat) w)) /\
    (lib = 0 -> fails_on E (candidates plat) w = Some w') /\
    (lib <> 0 ->
       exists pre p post wi,
         candidates plat = pre ++ p :: post /\
         fails_on E pre w = Some wi /\
         baml_library_load E (Some p) wi = Some (lib, w')).
Proof.
  split; [apply paths_candidates |].
  destruct (load_default_run E plat w) as (lib & w' & Hrun & Hcases).
  exists lib, w'. split; [exact Hrun |].
  destruct Hcases as [[-> Hf] | (Hlib & pre & p & post & wi & Hc & Hpre & Hp)].
  - repeat split; eauto; congruence.
  - split; [| split; [congruence | intros _; eauto 10]].
    split; [congruence |].
    intros [wf Hwf]. exfalso.
    rewrite Hc, fails_on_app, Hpre in Hwf. cbn [fails_on] in Hwf.
    rewrite Hp, (is_null_false _ Hlib) in Hwf. discriminate.
Qed.

(** ** Liveness check and unload *)

Lemma is_loaded_live lib L w :
  lib <> 0 -> heap w !! lib = Some L ->
  baml_library_is_loaded lib w = Some (negb (is_null (handle L)), w).
Proof.
  intros Hlib HL. unfold baml_library_is_loaded.
  rewrite (is_null_false _ Hlib).
  now rewrite (bind_some _ _ _ _ _ (field_live handle _ _ _ HL)).
Qed.

Lemma unload_live lib L w :
  lib <> 0 -> heap w !! lib = Some L ->
  baml_library_unload lib w =
  Some (tt, mkWorld
              (if is_null (handle L) then opened w
               else remove_first (handle L) (opened w))
              (delete lib (heap w)) (mem w)
              (trace w ++ (if is_null (handle L) then []
                           else [EvClose (handle L)]) ++ [EvFree lib])).
Proof.
  intros Hlib HL. unfold baml_library_unload.
  rewrite (is_null_false _ Hlib).
  rewrite (bind_some _ _ _ _ _ (field_live handle _ _ _ HL)).
  unfold when. destruct (is_null (handle L)); cbn [negb].
  - unfold bind, ret, free. rewrite (is_null_false _ Hlib), HL. reflexivity.
  - rewrite (bind_some _ _ _ tt
               (mkWorld (remove_first (handle L) (opened w)) (heap w) (mem w)
                        (trace w ++ [EvClose (handle L)]))).
    + unfold free. cbn [heap opened mem trace].
      rewrite (is_null_false _ Hlib), HL. now rewrite <- app_assoc.
    + now rewrite (bind_some _ _ _ _ _ (field_live handle _ _ _ HL)).
Qed.

(** What a successful load leaves is a fully loaded handle. *)
Lemma load_fully_loaded E path w lib w' :
  baml_library_load E path w = Some (lib, w') -> lib <> 0 ->
  fully_loaded w' lib /\ baml_library_is_loaded lib w' = Some (true, w').
Proof.
  intros Hload Hlib.
  destruct (load_returns_handle E path w lib w' Hload Hlib)
    as (p & -> & Hh & Hm & Ha & ->).
  apply mandatory_true in Hm. destruct Hm as [Hc Hf].
  assert (HL : heap (mkWorld (open_answer E w p :: opened w)
                       (<[lib := table E w p]> (heap w)) (mem w)
                       (trace_allocated E w p)) !! lib = Some (table E w p))
    by apply lookup_insert_eq.
  split.
  - exists (table E w p). repeat split; auto. cbn. left.
  - rewrite (is_loaded_live _ _ _ Hlib HL).
    change (handle (table E w p)) with (open_answer E w p).
    now rewrite (is_null_false _ Hh).
Qed.

(** C6. Every non-null handle returned by [baml_library_load] or by
    [baml_library_load_default] is fully loaded in the world returned with
    it: it is a live wrapper whose OS handle is non-null and held open and
    whose two mandatory symbols are resolved, and
    [baml_library_is_loaded] answers true on it.
    [baml_library_is_loaded] is a pure predicate: on a null handle or a
    live wrapper it returns, leaves the world as it is, and answers true
    exactly when the handle is non-null and its OS handle is non-null. *)
Theorem returned_handles_fully_loaded (E : Env) :
  (forall path w lib w',
     baml_library_load E path w = Some (lib, w') -> lib <> 0 ->
     fully_loaded w' lib /\ baml_library_is_loaded lib w' = Some (true, w')) /\
  (forall plat w lib w',
     baml_library_load_default E plat w = Some (lib, w') -> lib <> 0 ->
     fully_loaded w' lib /\ baml_library_is_loaded lib w' = Some (true, w')) /\
  (forall w lib, handle_ok w lib ->
     exists b, baml_library_is_loaded lib w = Some (b, w) /\
       (b = true <->
        lib <> 0 /\ exists L, heap w !! lib = Some L /\ handle L <> 0)).
Proof.
  split; [| split].
  - apply load_fully_loaded.
  - intros plat w lib w' Hrun Hlib.
    destruct (load_default_run E plat w) as (lib0 & w0 & Hrun0 & Hcases).
    rewrite Hrun in Hrun0. injection Hrun0 as <- <-.
    destruct Hcases as [[-> _] | (_ & pre & p & post & wi & _ & _ & Hp)];
      [congruence |].
    exact (load_fully_loaded E _ _ _ _ Hp Hlib).
  - intros w lib [-> | [L HL]].
    + exists false. split; [reflexivity |]. split; [discriminate | tauto].
    + destruct (is_null_spec lib) as [-> | Hlib].
      * exists false. split; [reflexivity |]. split; [discriminate | tauto].
      * exists (negb (is_null (handle L))).
        split; [exact (is_loaded_live _ _ _ Hlib HL) |].
        destruct (is_null_spec (handle L)) as [H0 | Hh]; cbn [negb].
        -- split; [discriminate |].
           intros (_ & L' & HL' & Hh'). congruence.
        -- split; [| reflexivity]. intros _. split; [exact Hlib |]. eauto.
Qed.

(** C8. [baml_library_unload] of a null handle does nothing.  On a live
    wrapper it closes the OS handle when that is non-null, frees the
    wrapper, and does nothing else.  A successful load followed at once by
    the unload of its handle leaves the OS references, the wrapper
    allocations and the caller memory as they were before the load: no
    library stays open and the wrapper is gone. *)
Theorem unload_releases (E : Env) :
  (forall w, baml_library_unload 0 w = Some (tt, w)) /\
  (forall w lib L, lib <> 0 -> heap w !! lib = Some L ->
     baml_library_unload lib w =
     Some (tt, mkWorld
                 (if is_null (handle L) then opened w
                  else remove_first (handle L) (opened w))
                 (delete lib (heap w)) (mem w)
                 (trace w ++ (if is_null (handle L) then []
                              else [EvClose (handle L)]) ++ [EvFree lib]))) /\
  (forall path w lib w1,
     baml_library_load E path w = Some (lib, w1) -> lib <> 0 ->
     exists w2, baml_library_unload lib w1 = Some (tt, w2) /\
       opened w2 = opened w /\ heap w2 = heap w /\ mem w2 = mem w /\
       heap w2 !! lib = None /\
       exists h, trace w2 = trace w1 ++ [EvClose h; EvFree lib]).
Proof.
  split; [| split].
  - reflexivity.
  - intros w lib L. apply unload_live.
  - intros path w lib w1 Hload Hlib.
    destruct (load_returns_handle E path w lib w1 Hload Hlib)
      as (p & -> & Hh & Hm & Ha & ->).
    eexists. split.
    + apply unload_live; [exact Hlib | apply lookup_insert_eq].
    + change (handle (table E w p)) with (open_answer E w p).
      rewrite (is_null_false _ Hh). cbn [opened heap mem trace].
      rewrite remove_first_head, delete_insert_eq.
      assert (Hfree : heap w !! lib = None) by (rewrite Ha; apply fresh_addr_free).
      rewrite (delete_id _ _ Hfree).
      repeat split; auto. exists (open_answer E w p). reflexivity.
Qed.

(** ** The dispatcher *)

Lemma guard_null f w :
  orM (ret (is_null 0)) (absent f 0) w = Some (true, w).
Proof. reflexivity. Qed.

Lemma guard_live f lib L w :
  heap w !! lib = Some L ->
  orM (ret (is_null lib)) (absent f lib) w =
  Some (is_null lib || is_null (f L), w).
Proof.
  intros HL. unfold orM, bind, ret.
  destruct (is_null lib); [reflexivity |].
  apply (absent_live _ _ _ _ HL).
Qed.

Lemma write_null_run out_ptr out_len w :
  write_null out_ptr out_len w =
  Some (tt, mkWorld (opened w) (heap w)
              (set_cell out_len 0 (set_cell out_ptr 0 (mem w))) (trace w)).
Proof.
  unfold write_null, when, bind, set_cell, poke, ret.
  destruct (is_null out_ptr), (is_null out_len); cbn; now destruct w.
Qed.

Lemma not_attempted_write_null out_ptr out_len w :
  not_attempted (write_null out_ptr out_len w) w out_ptr out_len.
Proof.
  eexists. split; [apply write_null_run |]. cbn [trace opened heap mem].
  unfold set_cell.
  repeat split; auto.
  - intros Hp. rewrite (is_null_false _ Hp).
    destruct (is_null_spec out_len) as [_ | Hl]; [apply lookup_insert_eq |].
    destruct (decide (out_len = out_ptr)) as [-> | Hne];
      [apply lookup_insert_eq |].
    rewrite lookup_insert_ne by exact Hne. apply lookup_insert_eq.
  - intros Hl. rewrite (is_null_false _ Hl). apply lookup_insert_eq.
  - intros a Hap Hal.
    destruct (is_null out_len), (is_null out_ptr);
      rewrite ?lookup_insert_ne by congruence; reflexivity.
  - destruct (is_null_spec out_len), (is_null_spec out_ptr);
      rewrite ?lookup_insert_ne by congruence; reflexivity.
Qed.

Section Dispatch.

Variable E : Env.

Lemma call_and_store_run fn args out_ptr out_len w :
  fn <> 0 -> out_ptr <> 0 -> out_len <> 0 ->
  call_and_store E fn args out_ptr out_len w =
  Some (tt, mkWorld (opened w) (heap w)
              (<[out_len := buf_len (lib_ret_buf E (trace w) fn args)]>
                 (<[out_ptr := buf_ptr (lib_ret_buf E (trace w) fn args)]> (mem w)))
              (trace w ++ [EvCall fn args])).
Proof.
  intros Hf Hp Hl.
  unfold call_and_store, write_result, bind, call_buf, poke, log.
  rewrite (is_null_false _ Hf), (is_null_false _ Hp), (is_null_false _ Hl).
  reflexivity.
Qed.

Lemma forwarded_call_and_store fn args out_ptr out_len w :
  fn <> 0 -> out_ptr <> 0 -> out_len <> 0 ->
  forwarded E (call_and_store E fn args out_ptr out_len w) w fn args out_ptr out_len.
Proof.
  intros Hf Hp Hl. unfold forwarded. cbv zeta.
  eexists. split; [apply (call_and_store_run _ _ _ _ _ Hf Hp Hl) |].
  cbn [trace opened heap mem]. repeat split; auto.
  - apply lookup_insert_eq.
  - intros Hne. rewrite lookup_insert_ne by congruence. apply lookup_insert_eq.
Qed.

(** Evaluates the validation of an operation on a live wrapper ([H] says
    which), then the branch taken. *)
Ltac guard_live_with H :=
  repeat (apply orM_ret); exact (guard_live _ _ _ _ H).
Ltac guard_null_here :=
  repeat (apply orM_ret); apply guard_null.

Lemma version_null out_ptr out_len w :
  baml_version E 0 out_ptr out_len w = write_null out_ptr out_len w.
Proof.
  unfold baml_version. erewrite bind_some by guard_null_here. reflexivity.
Qed.

Lemma version_live lib L out_ptr out_len w :
  heap w !! lib = Some L ->
  baml_version E lib out_ptr out_len w =
  if is_null lib || is_null (version L) || is_null out_ptr || is_null out_len
  then write_null out_ptr out_len w
  else call_and_store E (version L) [] out_ptr out_len w.
Proof.
  intros HL. unfold baml_version. erewrite bind_some by guard_live_with HL.
  destruct (_ || _); [reflexivity |].
  now rewrite (bind_some _ _ _ _ _ (field_live _ _ _ _ HL)).
Qed.

Lemma create_runtime_null a b c w :
  baml_create_runtime E 0 a b c w = Some (0, w).
Proof.
  unfold baml_create_runtime. erewrite bind_some by guard_null_here. reflexivity.
Qed.

Lemma create_runtime_live lib L a b c w :
  heap w !! lib = Some L ->
  baml_create_runtime E lib a b c w =
  if is_null lib || is_null (create_runtime L) then Some (0, w)
  else call_ptr E (create_runtime L) [a; b; c] w.
Proof.
  intros HL. unfold baml_create_runtime. erewrite bind_some by guard_live_with HL.
  destruct (_ || _); [reflexivity |].
  now rewrite (bind_some _ _ _ _ _ (field_live _ _ _ _ HL)).
Qed.

Lemma destroy_runtime_null runtime w :
  baml_destroy_runtime 0 runtime w = Some (tt, w).
Proof.
  unfold baml_destroy_runtime. erewrite bind_some by guard_null_here. reflexivity.
Qed.

Lemma destroy_runtime_live lib L runtime w :
  heap w !! lib = Some L ->
  baml_destroy_runtime lib runtime w =
  if is_null lib || is_null (destroy_runtime L) || is_null runtime
  then Some (tt, w)
  else call_void (destroy_runtime L) [runtime] w.
Proof.
  intros HL. unfold baml_destroy_runtime. erewrite bind_some by guard_live_with HL.
  destruct (_ || _); [reflexivity |].
  now rewrite (bind_some _ _ _ _ _ (field_live _ _ _ _ HL)).
Qed.

Lemma call_function_null runtime name args len id out_ptr out_len w :
  baml_call_function E 0 runtime name args len id out_ptr out_len w =
  write_null out_ptr out_len w.
Proof.
  unfold baml_call_function. erewrite bind_some by guard_null_here. reflexivity.
Qed.

Lemma call_function_live lib L runtime name args len id out_ptr out_len w :
  heap w !! lib = Some L ->
  baml_call_function E lib runtime name args len id out_ptr out_len w =
  if is_null lib || is_null (call_function L) || is_null runtime
     || is_null out_ptr || is_null out_len
  then write_null out_ptr out_len w
  else call_and_store E (call_function L) [runtime; name; args; len; id]
         out_ptr out_len w.
Proof.
  intros HL. unfold baml_call_function. erewrite bind_some by guard_live_with HL.
  destruct (_ || _); [reflexivity |].
  now rewrite (bind_some _ _ _ _ _ (field_live _ _ _ _ HL)).
Qed.

Lemma call_function_stream_null runtime name args len id out_ptr out_len w :
  baml_call_function_stream E 0 runtime name args len id out_ptr out_len w =
  write_null out_ptr out_len w.
Proof.
  unfold baml_call_function_stream. erewrite bind_some by guard_null_here.
  reflexivity.
Qed.

Lemma call_function_stream_live lib L runtime name args len id out_ptr out_len w :
  heap w !! lib = Some L ->
  baml_call_function_stream E lib runtime name args len id out_ptr out_len w =
  if is_null lib || is_null (call_function_stream L) || is_null runtime
     || is_null out_ptr || is_null out_len
  then write_null out_ptr out_len w
  else call_and_store E (call_function_stream L) [runtime; name; args; len; id]
         out_ptr out_len w.
Proof.
  intros HL. unfold baml_call_function_stream.
  erewrite bind_some by guard_live_with HL.
  destruct (_ || _); [reflexivity |].
  now rewrite (bind_some _ _ _ _ _ (field_live _ _ _ _ HL)).
Qed.

Lemma call_object_constructor_null args len out_ptr out_len w :
  baml_call_object_constructor E 0 args len out_ptr out_len w =
  write_null out_ptr out_len w.
Proof.
  unfold baml_call_object_constructor. erewrite bind_some by guard_null_here.
  reflexivity.
Qed.

Lemma call_object_constructor_live lib L args len out_ptr out_len w :
  heap w !! lib = Some L ->
  baml_call_object_constructor E lib args len out_ptr out_len w =
  if is_null lib || is_null (call_object_constructor L)
     || is_null out_ptr || is_null out_len
  then write_null out_ptr out_len w
  else call_and_store E (call_object_constructor L) [args; len] out_ptr out_len w.
Proof.
  intros HL. unfold baml_call_object_constructor.
  erewrite bind_some by guard_live_with HL.
  destruct (_ || _); [reflexivity |].
  now rewrite (bind_some _ _ _ _ _ (field_live _ _ _ _ HL)).
Qed.

Lemma call_object_method_null runtime args len out_ptr out_len w :
  baml_call_object_method E 0 runtime args len out_ptr out_len w =
  write_null out_ptr out_len w.
Proof.
  unfold baml_call_object_method. erewrite bind_some by guard_null_here.
  reflexivity.
Qed.

Lemma call_object_method_live lib L runtime args len out_ptr out_len w :
  heap w !! lib = Some L ->
  baml_call_object_method E lib runtime args len out_ptr out_len w =
  if is_null lib || is_null (call_object_method L) || is_null runtime
     || is_null out_ptr || is_null out_len
  then write_null out_ptr out_len w
  else call_and_store E (call_object_method L) [runtime; args; len]
         out_ptr out_len w.
Proof.
  intros HL. unfold baml_call_object_method.
  erewrite bind_some by guard_live_with HL.
  destruct (_ || _); [reflexivity |].
  now rewrite (bind_some _ _ _ _ _ (field_live _ _ _ _ HL)).
Qed.

Lemma free_buffer_null ptr len w :
  baml_free_buffer 0 ptr len w = Some (tt, w).
Proof.
  unfold baml_free_buffer. erewrite bind_some by guard_null_here. reflexivity.
Qed.

Lemma free_buffer_live lib L ptr len w :
  heap w !! lib = Some L ->
  baml_free_buffer lib ptr len w =
  if is_null lib || is_null (free_buffer L) || is_null ptr
  then Some (tt, w)
  else call_void (free_buffer L) [ptr; len] w.
Proof.
  intros HL. unfold baml_free_buffer. erewrite bind_some by guard_live_with HL.
  destruct (_ || _); [reflexivity |].
  now rewrite (bind_some _ _ _ _ _ (field_live _ _ _ _ HL)).
Qed.

Lemma register_callbacks_null result_cb error_cb tick_cb w :
  baml_register_callbacks 0 result_cb error_cb tick_cb w = Some (tt, w).
Proof.
  unfold baml_register_callbacks. erewrite bind_some by guard_null_here.
  reflexivity.
Qed.

Lemma register_callbacks_live lib L result_cb error_cb tick_cb w :
  heap w !! lib = Some L ->
  baml_register_callbacks lib result_cb error_cb tick_cb w =
  if is_null lib || is_null (register_callbacks L) then Some (tt, w)
  else call_void (register_callbacks L) [result_cb; error_cb; tick_cb] w.
Proof.
  intros HL. unfold baml_register_callbacks.
  erewrite bind_some by guard_live_with HL.
  destruct (_ || _); [reflexivity |].
  now rewrite (bind_some _ _ _ _ _ (field_live _ _ _ _ HL)).
Qed.

End Dispatch.

(** Decides a validation whose disjunction has a null operand. *)
Ltac guard_true :=
  change (is_null 0) with true; rewrite ?orb_true_r; cbn [orb].

(** Splits [0 ∉ [a; b; ...]] into [a <> 0], [b <> 0], ... *)
Ltac split_required H :=
  repeat (apply not_elem_of_cons in H;
          let H0 := fresh "Hnz" in
          destruct H as [H0 H]; apply not_eq_sym in H0);
  clear H.

(** Reads [0 ∈ required] for the lists the operations use. *)
Ltac null_required H :=
  first [ apply elem_of_nil in H; contradiction
        | apply list_elem_of_singleton in H; subst ].

(** C1. Each operation of the call dispatcher, when its validation fails
    because the library handle is null, or the symbol the operation needs
    was not resolved, or its runtime argument (where it takes one) is
    null, returns without any external action, so that no symbol of the
    library is invoked; the buffer-returning operations store null and
    zero in their non-null output locations, [baml_create_runtime] returns
    null, and [baml_destroy_runtime] has no effect at all. *)
Theorem dispatcher_rejects_invalid (E : Env) (w : world)
    (lib runtime root_path src_files_json env_vars_json
     function_name encoded_args args_len call_id out_ptr out_len : Z) :
  (invalid w lib version [] ->
   not_attempted (baml_version E lib out_ptr out_len w) w out_ptr out_len) /\
  (invalid w lib create_runtime [] ->
   baml_create_runtime E lib root_path src_files_json env_vars_json w
   = Some (0, w)) /\
  (invalid w lib destroy_runtime [runtime] ->
   baml_destroy_runtime lib runtime w = Some (tt, w)) /\
  (invalid w lib call_function [runtime] ->
   not_attempted
     (baml_call_function E lib runtime function_name encoded_args args_len
        call_id out_ptr out_len w) w out_ptr out_len) /\
  (invalid w lib call_function_stream [runtime] ->
   not_attempted
     (baml_call_function_stream E lib runtime function_name encoded_args
        args_len call_id out_ptr out_len w) w out_ptr out_len) /\
  (invalid w lib call_object_constructor [] ->
   not_attempted
     (baml_call_object_constructor E lib encoded_args args_len
        out_ptr out_len w) w out_ptr out_len) /\
  (invalid w lib call_object_method [runtime] ->
   not_attempted
     (baml_call_object_method E lib runtime encoded_args args_len
        out_ptr out_len w) w out_ptr out_len).
Proof.
  repeat split; intros [-> | (L & HL & [Hsym | Hreq])].
  - rewrite version_null. apply not_attempted_write_null.
  - rewrite (version_live _ _ _ _ _ _ HL), Hsym. guard_true.
    apply not_attempted_write_null.
  - null_required Hreq.
  - apply create_runtime_null.
  - rewrite (create_runtime_live _ _ _ _ _ _ _ HL), Hsym. now guard_true.
  - null_required Hreq.
  - apply destroy_runtime_null.
  - rewrite (destroy_runtime_live _ _ _ _ HL), Hsym. now guard_true.
  - null_required Hreq. rewrite (destroy_runtime_live _ _ _ _ HL). now guard_true.
  - rewrite call_function_null. apply not_attempted_write_null.
  - rewrite (call_function_live _ _ _ _ _ _ _ _ _ _ _ HL), Hsym. guard_true.
    apply not_attempted_write_null.
  - null_required Hreq.
    rewrite (call_function_live _ _ _ _ _ _ _ _ _ _ _ HL). guard_true.
    apply not_attempted_write_null.
  - rewrite call_function_stream_null. apply not_attempted_write_null.
  - rewrite (call_function_stream_live _ _ _ _ _ _ _ _ _ _ _ HL), Hsym.
    guard_true. apply not_attempted_write_null.
  - null_required Hreq.
    rewrite (call_function_stream_live _ _ _ _ _ _ _ _ _ _ _ HL). guard_true.
    apply not_attempted_write_null.
  - rewrite call_object_constructor_null. apply not_attempted_write_null.
  - rewrite (call_object_constructor_live _ _ _ _ _ _ _ _ HL), Hsym.
    guard_true. apply not_attempted_write_null.
  - null_required Hreq.
  - rewrite call_object_method_null. apply not_attempted_write_null.
  - rewrite (call_object_method_live _ _ _ _ _ _ _ _ _ HL), Hsym.
    guard_true. apply not_attempted_write_null.
  - null_required Hreq.
    rewrite (call_object_method_live _ _ _ _ _ _ _ _ _ HL). guard_true.
    apply not_attempted_write_null.
Qed.

Lemma call_ptr_run E fn args w :
  fn <> 0 ->
  call_ptr E fn args w =
  Some (lib_ret_ptr E (trace w) fn args, log (EvCall fn args) w).
Proof. intros H. unfold call_ptr. now rewrite (is_null_false _ H). Qed.

Lemma call_void_run fn args w :
  fn <> 0 -> call_void fn args w = Some (tt, log (EvCall fn args) w).
Proof. intros H. unfold call_void. now rewrite (is_null_false _ H). Qed.

(** Decides a validation all of whose operands are known non-null. *)
Ltac guard_false :=
  repeat match goal with
         | H : ?x <> 0 |- context [is_null ?x] => rewrite (is_null_false x H)
         end;
  cbn [orb].

(** C3. Each operation of the call dispatcher, when its validation passes
    (the handle is a live wrapper [L], the symbol the operation needs is
    resolved, and its runtime and output pointers, where it has them, are
    non-null), performs exactly one external action: the call of that
    symbol on the caller's arguments, in the caller's order and unchanged.
    A buffer-returning operation then stores the pointer and the length
    the library answered in the output locations and changes nothing
    else; [baml_create_runtime] returns the pointer the library answered;
    [baml_destroy_runtime] returns after the call. *)
Theorem dispatcher_forwards (E : Env) (w : world) (L : BamlLibrary)
    (lib runtime root_path src_files_json env_vars_json
     function_name encoded_args args_len call_id out_ptr out_len : Z) :
  (valid w lib L version [out_ptr; out_len] ->
   forwarded E (baml_version E lib out_ptr out_len w) w
     (version L) [] out_ptr out_len) /\
  (valid w lib L create_runtime [] ->
   baml_create_runtime E lib root_path src_files_json env_vars_json w
   = Some (lib_ret_ptr E (trace w) (create_runtime L)
             [root_path; src_files_json; env_vars_json],
           log (EvCall (create_runtime L)
                  [root_path; src_files_json; env_vars_json]) w)) /\
  (valid w lib L destroy_runtime [runtime] ->
   baml_destroy_runtime lib runtime w
   = Some (tt, log (EvCall (destroy_runtime L) [runtime]) w)) /\
  (valid w lib L call_function [runtime; out_ptr; out_len] ->
   forwarded E
     (baml_call_function E lib runtime function_name encoded_args args_len
        call_id out_ptr out_len w) w
     (call_function L)
     [runtime; function_name; encoded_args; args_len; call_id]
     out_ptr out_len) /\
  (valid w lib L call_function_stream [runtime; out_ptr; out_len] ->
   forwarded E
     (baml_call_function_stream E lib runtime function_name encoded_args
        args_len call_id out_ptr out_len w) w
     (call_function_stream L)
     [runtime; function_name; encoded_args; args_len; call_id]
     out_ptr out_len) /\
  (valid w lib L call_object_constructor [out_ptr; out_len] ->
   forwarded E
     (baml_call_object_constructor E lib encoded_args args_len
        out_ptr out_len w) w
     (call_object_constructor L) [encoded_args; args_len]
     out_ptr out_len) /\
  (valid w lib L call_object_method [runtime; out_ptr; out_len] ->
   forwarded E
     (baml_call_object_method E lib runtime encoded_args args_len
        out_ptr out_len w) w
     (call_object_method L) [runtime; encoded_args; args_len]
     out_ptr out_len).
Proof.
  repeat split; intros (Hlib & HL & Hsym & Hreq); split_required Hreq.
  - rewrite (version_live _ _ _ _ _ _ HL). guard_false.
    now apply forwarded_call_and_store.
  - rewrite (create_runtime_live _ _ _ _ _ _ _ HL). guard_false.
    now apply call_ptr_run.
  - rewrite (destroy_runtime_live _ _ _ _ HL). guard_false.
    now apply call_void_run.
  - rewrite (call_function_live _ _ _ _ _ _ _ _ _ _ _ HL). guard_false.
    now apply forwarded_call_and_store.
  - rewrite (call_function_stream_live _ _ _ _ _ _ _ _ _ _ _ HL). guard_false.
    now apply forwarded_call_and_store.
  - rewrite (call_object_constructor_live _ _ _ _ _ _ _ _ HL). guard_false.
    now apply forwarded_call_and_store.
  - rewrite (call_object_method_live _ _ _ _ _ _ _ _ _ HL). guard_false.
    now apply forwarded_call_and_store.
Qed.

(** C10. A buffer-returning operation that is handed a null output
    location (either of the two, or both), on a handle that is null or a
    live wrapper, returns without any external action, so that no symbol
    of the library is invoked; it stores nothing through the null
    location (the operation is defined and the cell at the null address is
    as before) and still stores null or zero in the other location when
    that one is non-null. *)
Theorem null_output_location (E : Env) (w : world)
    (lib runtime function_name encoded_args args_len call_id
     out_ptr out_len : Z) :
  handle_ok w lib -> out_ptr = 0 \/ out_len = 0 ->
  not_attempted (baml_version E lib out_ptr out_len w) w out_ptr out_len /\
  not_attempted
    (baml_call_function E lib runtime function_name encoded_args args_len
       call_id out_ptr out_len w) w out_ptr out_len /\
  not_attempted
    (baml_call_function_stream E lib runtime function_name encoded_args
       args_len call_id out_ptr out_len w) w out_ptr out_len /\
  not_attempted
    (baml_call_object_constructor E lib encoded_args args_len
       out_ptr out_len w) w out_ptr out_len /\
  not_attempted
    (baml_call_object_method E lib runtime encoded_args args_len
       out_ptr out_len w) w out_ptr out_len.
Proof.
  intros [-> | [L HL]] Hout.
  - rewrite version_null, call_function_null, call_function_stream_null,
      call_object_constructor_null, call_object_method_null.
    repeat split; apply not_attempted_write_null.
  - rewrite (version_live _ _ _ _ _ _ HL),
      (call_function_live _ _ _ _ _ _ _ _ _ _ _ HL),
      (call_function_stream_live _ _ _ _ _ _ _ _ _ _ _ HL),
      (call_object_constructor_live _ _ _ _ _ _ _ _ HL),
      (call_object_method_live _ _ _ _ _ _ _ _ _ HL).
    destruct Hout as [-> | ->]; guard_true;
      repeat split; apply not_attempted_write_null.
Qed.

(** ** Buffer release and callback registration *)

(** C7. [baml_register_callbacks] does nothing when the handle is null or
    the registration symbol was not resolved; on a live wrapper whose
    registration symbol is resolved it performs exactly one external
    action, the call of that symbol on the three callback pointers, in
    order and unchanged.  In particular, on a handle loaded from a library
    that exposes only the two mandatory symbols, registration does
    nothing. *)
Theorem register_callbacks_forwards (E : Env) :
  (forall w result_cb error_cb tick_cb,
     baml_register_callbacks 0 result_cb error_cb tick_cb w = Some (tt, w)) /\
  (forall w lib L result_cb error_cb tick_cb,
     heap w !! lib = Some L -> register_callbacks L = 0 ->
     baml_register_callbacks lib result_cb error_cb tick_cb w = Some (tt, w)) /\
  (forall w lib L result_cb error_cb tick_cb,
     lib <> 0 -> heap w !! lib = Some L -> register_callbacks L <> 0 ->
     baml_register_callbacks lib result_cb error_cb tick_cb w
     = Some (tt, log (EvCall (register_callbacks L)
                        [result_cb; error_cb; tick_cb]) w)) /\
  (only_mandatory E ->
   forall path w lib w1 result_cb error_cb tick_cb,
     baml_library_load E path w = Some (lib, w1) -> lib <> 0 ->
     baml_register_callbacks lib result_cb error_cb tick_cb w1
     = Some (tt, w1)).
Proof.
  split; [| split; [| split]].
  - intros. apply register_callbacks_null.
  - intros w lib L a b c HL Hsym.
    rewrite (register_callbacks_live _ _ _ _ _ _ HL), Hsym. now guard_true.
  - intros w lib L a b c Hlib HL Hsym.
    rewrite (register_callbacks_live _ _ _ _ _ _ HL). guard_false.
    now apply call_void_run.
  - intros Honly path w lib w1 a b c Hload Hlib.
    destruct (load_returns_handle E path w lib w1 Hload Hlib)
      as (p & -> & Hh & Hm & Ha & ->).
    rewrite (register_callbacks_live lib (table E w p)) by apply lookup_insert_eq.
    change (register_callbacks (table E w p))
      with (os_dlsym E (trace_allocated E w p) (open_answer E w p)
              "register_callbacks").
    rewrite Honly by discriminate. now guard_true.
Qed.

(** C5, as the code has it.  [baml_free_buffer] does nothing when the
    handle is null, when the deallocation symbol was not resolved, or when
    the buffer pointer is null; only on a live wrapper whose deallocation
    symbol is resolved and with a non-null buffer pointer does it perform
    its one external action, the call of that symbol on the pointer and
    the length. *)
Theorem free_buffer_guarded (w : world) (lib ptr len : Z) (L : BamlLibrary) :
  baml_free_buffer 0 ptr len w = Some (tt, w) /\
  (heap w !! lib = Some L -> free_buffer L = 0 \/ ptr = 0 ->
   baml_free_buffer lib ptr len w = Some (tt, w)) /\
  (lib <> 0 -> heap w !! lib = Some L -> free_buffer L <> 0 -> ptr <> 0 ->
   baml_free_buffer lib ptr len w
   = Some (tt, log (EvCall (free_buffer L) [ptr; len]) w)).
Proof.
  split; [| split].
  - apply free_buffer_null.
  - intros HL [Hsym | ->]; rewrite (free_buffer_live _ _ _ _ _ HL).
    + rewrite Hsym. now guard_true.
    + now guard_true.
  - intros Hlib HL Hsym Hptr.
    rewrite (free_buffer_live _ _ _ _ _ HL). guard_false.
    now apply call_void_run.
Qed.

(** ** The theorems at work on the stub libraries *)

Lemma stub_load :
  baml_library_load stub_env (Some "./libbaml_ffi.so"%string) empty_world
  = Some (1, stub_loaded).
Proof. vm_compute. reflexivity. Qed.

Lemma full_load :
  baml_library_load full_env (Some "./libbaml_ffi.so"%string) empty_world
  = Some (1, full_loaded).
Proof. vm_compute. reflexivity. Qed.

Lemma stub_live : heap stub_loaded !! 1 = Some stub_library.
Proof. reflexivity. Qed.

Lemma full_live : heap full_loaded !! 1 = Some full_library.
Proof. reflexivity. Qed.

Lemma stub_only_mandatory : only_mandatory stub_env.
Proof.
  intros tr h n Hc Hf. cbn.
  destruct (String.eqb_spec n "create_baml_runtime"); [contradiction |].
  destruct (String.eqb_spec n "call_function_from_c"); [contradiction |].
  now rewrite !andb_false_r.
Qed.

(** C5, as the specification words it, fails: the handle [1] loaded from
    the stub library has no deallocation symbol, and releasing the
    non-null buffer [(777, 5)] through it returns with the world as it
    was; no call of any symbol on [(777, 5)] is added to the trace. *)
Lemma free_buffer_not_forwarded :
  baml_library_load stub_env (Some "./libbaml_ffi.so"%string) empty_world
  = Some (1, stub_loaded) /\
  baml_free_buffer 1 777 5 stub_loaded = Some (tt, stub_loaded) /\
  ~ (exists fn w',
       baml_free_buffer 1 777 5 stub_loaded = Some (tt, w') /\
       trace w' = trace stub_loaded ++ [EvCall fn [777; 5]]).
Proof.
  assert (Hrun : baml_free_buffer 1 777 5 stub_loaded = Some (tt, stub_loaded))
    by (vm_compute; reflexivity).
  split; [exact stub_load |]. split; [exact Hrun |].
  intros (fn & w' & Hw & Htr). rewrite Hrun in Hw. injection Hw as <-.
  cbn in Htr. discriminate.
Qed.

Lemma free_buffer_guarded_witness :
  (1 <> 0 /\ heap full_loaded !! 1 = Some full_library /\
   free_buffer full_library <> 0 /\ 777 <> 0) /\
  baml_free_buffer 1 777 5 full_loaded
  = Some (tt, log (EvCall 207 [777; 5]) full_loaded).
Proof.
  assert (H1 : 1 <> 0) by discriminate.
  assert (H2 : free_buffer full_library <> 0) by discriminate.
  assert (H3 : 777 <> 0) by discriminate.
  split; [repeat split; [exact H1 | exact H2 | exact H3] |].
  exact (proj2 (proj2 (free_buffer_guarded full_loaded 1 777 5 full_library))
           H1 full_live H2 H3).
Defined.

Lemma dispatcher_rejects_invalid_witness :
  invalid stub_loaded 1 version [] /\
  not_attempted (baml_version stub_env 1 50 51 stub_loaded) stub_loaded 50 51.
Proof.
  assert (H : invalid stub_loaded 1 version []).
  { right. exists stub_library. split; [exact stub_live | left; reflexivity]. }
  split; [exact H |].
  exact (proj1 (dispatcher_rejects_invalid stub_env stub_loaded
                  1 9 0 0 0 0 0 0 0 50 51) H).
Defined.

Lemma dispatcher_forwards_witness :
  valid full_loaded 1 full_library call_function [9; 50; 51] /\
  forwarded full_env
    (baml_call_function full_env 1 9 8 7 6 42 50 51 full_loaded) full_loaded
    202 [9; 8; 7; 6; 42] 50 51.
Proof.
  assert (H : valid full_loaded 1 full_library call_function [9; 50; 51]).
  { split; [discriminate |]. split; [exact full_live |].
    split; [discriminate |].
    intros Hin. repeat (apply elem_of_cons in Hin; destruct Hin as [Hin | Hin];
                        [discriminate |]).
    now apply elem_of_nil in Hin. }
  split; [exact H |].
  exact (proj1 (proj2 (proj2 (proj2
           (dispatcher_forwards full_env full_loaded full_library
              1 9 0 0 0 8 7 6 42 50 51)))) H).
Defined.

Lemma null_output_location_witness :
  handle_ok stub_loaded 1 /\ (0 = 0 \/ 51 = 0) /\
  not_attempted
    (baml_call_function stub_env 1 9 8 7 6 42 0 51 stub_loaded)
    stub_loaded 0 51.
Proof.
  assert (H1 : handle_ok stub_loaded 1)
    by (right; exists stub_library; exact stub_live).
  assert (H2 : 0 = 0 \/ 51 = 0) by (left; reflexivity).
  split; [exact H1 |]. split; [exact H2 |].
  exact (proj1 (proj2
           (null_output_location stub_env stub_loaded 1 9 8 7 6 42 0 51 H1 H2))).
Defined.

Lemma returned_handles_fully_loaded_witness :
  1 <> 0 /\
  fully_loaded stub_loaded 1 /\
  baml_library_is_loaded 1 stub_loaded = Some (true, stub_loaded).
Proof.
  assert (H : 1 <> 0) by discriminate.
  split; [exact H |].
  exact (proj1 (returned_handles_fully_loaded stub_env)
           (Some "./libbaml_ffi.so"%string) empty_world 1 stub_loaded
           stub_load H).
Defined.

Lemma register_callbacks_forwards_witness :
  only_mandatory stub_env /\
  baml_register_callbacks 1 301 302 303 stub_loaded = Some (tt, stub_loaded).
Proof.
  assert (H : 1 <> 0) by discriminate.
  split; [exact stub_only_mandatory |].
  exact (proj2 (proj2 (proj2 (register_callbacks_forwards stub_env)))
           stub_only_mandatory (Some "./libbaml_ffi.so"%string) empty_world
           1 stub_loaded 301 302 303 stub_load H).
Defined.

Lemma unload_releases_witness :
  exists w2,
    baml_library_unload 1 stub_loaded = Some (tt, w2) /\
    opened w2 = opened empty_world /\ heap w2 = heap empty_world /\
    mem w2 = mem empty_world /\ heap w2 !! 1 = None /\
    exists h, trace w2 = trace stub_loaded ++ [EvClose h; EvFree 1].
Proof.
  assert (H : 1 <> 0) by discriminate.
  exact (proj2 (proj2 (unload_releases stub_env))
           (Some "./libbaml_ffi.so"%string) empty_world 1 stub_loaded
           stub_load H).
Defined.

(** * Further properties of the wrapper *)

(** ** Symbol resolution *)

Lemma with_lib_same w lib L : heap w !! lib = Some L -> with_lib w lib L = w.
Proof.
  intros H. unfold with_lib. rewrite (insert_id _ _ _ H). now destruct w.
Qed.

(** X1. [load_symbols] on a null pointer, or on a wrapper whose OS handle
    is null, answers false at once and resolves nothing: the struct and the
    rest of the world stay as they are.  On a live wrapper with a non-null
    handle it overwrites all nine function pointers, whatever they held
    before, with what [dlsym] answers for the nine names, keeps the handle,
    and answers true exactly when [create_baml_runtime] and
    [call_function_from_c] resolved; the seven other symbols have no part
    in the answer. *)
Theorem load_symbols_resolves (E : Env) (w : world) (lib : Z) (L : BamlLibrary) :
  load_symbols E 0 w = Some (false, w) /\
  (heap w !! lib = Some L -> handle L = 0 ->
   load_symbols E lib w = Some (false, w)) /\
  (lib <> 0 -> heap w !! lib = Some L -> handle L <> 0 ->
   let sym := os_dlsym E (trace w) (handle L) in
   load_symbols E lib w =
   Some (negb (is_null (sym "create_baml_runtime"%string))
         && negb (is_null (sym "call_function_from_c"%string)),
         mkWorld (opened w)
           (<[lib := mkLibrary (handle L)
                       (sym "create_baml_runtime"%string)
                       (sym "destroy_baml_runtime"%string)
                       (sym "call_function_from_c"%string)
                       (sym "call_function_stream_from_c"%string)
                       (sym "call_object_constructor"%string)
                       (sym "call_object_method"%string)
                       (sym "free_buffer"%string)
                       (sym "version"%string)
                       (sym "register_callbacks"%string)]> (heap w))
           (mem w) (trace w))).
Proof.
  split; [reflexivity |]. split.
  - intros HL Hh. unfold load_symbols.
    rewrite (bind_some _ _ _ true w); [reflexivity |].
    rewrite (guard_live _ _ _ _ HL), Hh. now guard_true.
  - intros Hlib HL Hh. cbv zeta.
    rewrite <- (with_lib_same _ _ _ HL) at 1.
    now rewrite (load_symbols_run E w lib L Hlib Hh).
Qed.

Lemma load_symbols_resolves_witness :
  (1 <> 0 /\ heap stub_loaded !! 1 = Some stub_library /\
   handle stub_library <> 0) /\
  load_symbols stub_env 1 stub_loaded = Some (true, stub_loaded).
Proof.
  assert (H1 : 1 <> 0) by discriminate.
  assert (H2 : handle stub_library <> 0) by discriminate.
  split; [repeat split; [exact H1 | exact H2] |].
  refine (eq_trans
            (proj2 (proj2 (load_symbols_resolves stub_env stub_loaded 1 stub_library))
               H1 stub_live H2) _).
  vm_compute. reflexivity.
Defined.

(** ** What the life-cycle functions leave alone *)

Lemma calls_app tr1 tr2 : calls (tr1 ++ tr2) = calls tr1 ++ calls tr2.
Proof. unfold calls. apply filter_app. Qed.

Lemma calls_other tr e : is_call e = false -> calls (tr ++ [e]) = calls tr.
Proof.
  intros H. rewrite calls_app. unfold calls at 2.
  rewrite filter_cons_False by (rewrite H; discriminate).
  rewrite filter_nil. apply app_nil_r.
Qed.

Lemma calls_call tr fn args :
  calls (tr ++ [EvCall fn args]) = calls tr ++ [EvCall fn args].
Proof.
  rewrite calls_app. unfold calls at 2.
  now rewrite filter_cons_True by reflexivity.
Qed.

Lemma calls_none l :
  forallb (fun e => negb (is_call e)) l = true -> calls l = [].
Proof.
  induction l as [| e l IH]; [reflexivity |].
  cbn [forallb]. intros [He Hl]%andb_true_iff.
  unfold calls. rewrite filter_cons_False.
  - now apply IH.
  - destruct (is_call e); [discriminate He | discriminate].
Qed.

Lemma calls_app_none tr l :
  forallb (fun e => negb (is_call e)) l = true -> calls (tr ++ l) = calls tr.
Proof. intros H. now rewrite calls_app, (calls_none _ H), app_nil_r. Qed.

(** A load leaves the caller's memory and the calls made so far as they
    are, and a failed load also the OS references and the wrappers. *)
Lemma load_frame E path w lib w' :
  baml_library_load E path w = Some (lib, w') ->
  mem w' = mem w /\ calls (trace w') = calls (trace w) /\
  (lib = 0 -> opened w' = opened w /\ heap w' = heap w).
Proof.
  destruct path as [p |]; [| intros [= <- <-]; auto].
  rewrite load_refines. unfold load_spec, trace_allocated, trace_opened.
  pose proof (fresh_addr_nonnull (heap w)) as Ha.
  destruct (is_null (open_answer E w p));
    [| destruct (alloc_ok E w p); cbn [negb];
       [destruct (mandatory (table E w p)); cbn [negb] |]];
    intros [= <- <-]; cbn [mem trace opened heap];
    rewrite <- ?app_assoc, calls_app_none by reflexivity;
    repeat split; auto; try (intros; congruence).
Qed.

Lemma fails_on_frame E ps w w' :
  fails_on E ps w = Some w' ->
  mem w' = mem w /\ calls (trace w') = calls (trace w) /\
  opened w' = opened w /\ heap w' = heap w.
Proof.
  revert w. induction ps as [| p ps IH]; intros w; cbn [fails_on].
  - intros [= <-]. auto.
  - destruct (baml_library_load E (Some p) w) as [[lib w1] |] eqn:Hload;
      [| discriminate].
    destruct (is_null_spec lib) as [-> | _]; [| discriminate].
    intros Hrest. destruct (IH _ Hrest) as (Hm & Hc & Ho & Hh).
    destruct (load_frame _ _ _ _ _ Hload) as (Hm1 & Hc1 & Hz).
    destruct (Hz eq_refl) as [Ho1 Hh1].
    repeat split; congruence.
Qed.

(** X2. What a load of the path [p] does to the process.  When [dlopen]
    fails, the load returns null after that one attempt: no allocation is
    tried and nothing is closed.  When the load returns a handle, that
    handle was not a live wrapper before, exactly two actions happened
    ([dlopen], then the allocation), the process holds one more reference
    to the library [dlopen] answered, and the new wrapper holds that
    handle and what [dlsym] answers for the nine names.  In every case the
    caller's memory is untouched and no symbol of the library is called. *)
Theorem load_effects (E : Env) (p : string) (w : world) :
  (os_dlopen E (trace w) p = 0 ->
   baml_library_load E (Some p) w = Some (0, log (EvOpen p 0) w)) /\
  (forall lib w',
     baml_library_load E (Some p) w = Some (lib, w') -> lib <> 0 ->
     let h := os_dlopen E (trace w) p in
     heap w !! lib = None /\ h <> 0 /\
     opened w' = h :: opened w /\
     trace w' = trace w ++ [EvOpen p h; EvAlloc lib] /\
     heap w' = <[lib := resolved E (trace w') h]> (heap w)) /\
  (forall lib w',
     baml_library_load E (Some p) w = Some (lib, w') ->
     mem w' = mem w /\ calls (trace w') = calls (trace w)).
Proof.
  split; [| split].
  - intros H0. rewrite load_refines. unfold load_spec, trace_opened, open_answer.
    rewrite H0. reflexivity.
  - intros lib w' Hload Hlib. cbv zeta.
    destruct (load_returns_handle E _ w lib w' Hload Hlib)
      as (q & [= <-] & Hh & _ & Ha & ->).
    cbn [opened heap trace]. unfold table, trace_allocated, trace_opened in *.
    fold (open_answer E w p). rewrite <- Ha, <- app_assoc.
    repeat split; auto. rewrite Ha. apply fresh_addr_free.
  - intros lib w' Hload.
    destruct (load_frame _ _ _ _ _ Hload) as (Hm & Hc & _). auto.
Qed.

(** X3. [baml_library_load_default] always returns, and whatever number of
    candidates failed before, what it leaves is what one load leaves: with
    a null result the OS references and the wrappers are as before; with a
    handle the process holds exactly one more OS reference and one more
    wrapper, the one returned, whose handle is that reference.  The
    caller's memory is untouched and no symbol of the library is called.
    On a build target without candidates it returns null and does
    nothing. *)
Theorem load_default_effects (E : Env) (plat : platform) (w : world) :
  baml_library_load_default E OtherPlatform w = Some (0, w) /\
  exists lib w',
    baml_library_load_default E plat w = Some (lib, w') /\
    mem w' = mem w /\ calls (trace w') = calls (trace w) /\
    (lib = 0 -> opened w' = opened w /\ heap w' = heap w) /\
    (lib <> 0 ->
     exists L, handle L <> 0 /\ heap w !! lib = None /\
       opened w' = handle L :: opened w /\
       heap w' = <[lib := L]> (heap w)).
Proof.
  split; [reflexivity |].
  destruct (load_default_run E plat w) as (lib & w' & Hrun & Hcases).
  exists lib, w'. split; [exact Hrun |].
  destruct Hcases as [[-> Hf] | (Hlib & pre & p & post & wi & _ & Hpre & Hp)].
  - destruct (fails_on_frame _ _ _ _ Hf) as (Hm & Hc & Ho & Hh).
    repeat split; auto. congruence.
  - destruct (fails_on_frame _ _ _ _ Hpre) as (Hm & Hc & Ho & Hh).
    destruct (load_frame _ _ _ _ _ Hp) as (Hm1 & Hc1 & _).
    destruct (load_returns_handle E _ wi lib w' Hp Hlib)
      as (q & _ & Hq & _ & Ha & ->).
    cbn [opened heap mem trace] in *.
    split; [congruence |]. split; [congruence |]. split; [congruence |].
    intros _. exists (table E wi q).
    change (handle (table E wi q)) with (open_answer E wi q).
    rewrite <- Ho, <- Hh. repeat split; auto.
    rewrite Ha. apply fresh_addr_free.
Qed.

(** ** Safety of the operations that take a handle *)

Lemma is_null_false_inv p : is_null p = false -> p <> 0.
Proof. intros H. now destruct (is_null_spec p). Qed.

(** Splits a validation that came out false into its non-null facts. *)
Ltac guard_split Hg :=
  repeat (apply orb_false_elim in Hg;
          let H := fresh "Hnn" in
          destruct Hg as [Hg H]; apply is_null_false_inv in H);
  apply is_null_false_inv in Hg.

Lemma safe_ret {A} (a : A) w : at_most_one_call (Some (a, w)) w.
Proof. exists a, w. auto. Qed.

Lemma safe_write_null out_ptr out_len w :
  at_most_one_call (write_null out_ptr out_len w) w.
Proof.
  eexists _, _. split; [apply write_null_run |]. cbn. auto.
Qed.

Lemma safe_call_and_store E fn args out_ptr out_len w :
  fn <> 0 -> out_ptr <> 0 -> out_len <> 0 ->
  at_most_one_call (call_and_store E fn args out_ptr out_len w) w.
Proof.
  intros Hf Hp Hl. eexists _, _.
  split; [apply (call_and_store_run _ _ _ _ _ _ Hf Hp Hl) |].
  cbn. repeat split; auto. right. eauto.
Qed.

Lemma safe_call_ptr E fn args w :
  fn <> 0 -> at_most_one_call (call_ptr E fn args w) w.
Proof.
  intros Hf. eexists _, _. split; [apply (call_ptr_run _ _ _ _ Hf) |].
  cbn. repeat split; auto. right. eauto.
Qed.

Lemma safe_call_void fn args w :
  fn <> 0 -> at_most_one_call (call_void fn args w) w.
Proof.
  intros Hf. eexists _, _. split; [apply (call_void_run _ _ _ Hf) |].
  cbn. repeat split; auto. right. eauto.
Qed.

(** X4. On a handle that is null or a live wrapper, every operation that
    takes a handle is defined for all values of its other arguments: it
    never reads through the handle before the null check, never calls a
    null function pointer, and never stores through a null output
    pointer.  It leaves the OS references and the wrappers as they are,
    and its only possible external action is one call through a non-null
    resolved pointer. *)
Theorem handle_operations_safe (E : Env) (w : world)
    (lib runtime root_path src_files_json env_vars_json
     function_name encoded_args args_len call_id out_ptr out_len
     ptr len result_cb error_cb tick_cb : Z) :
  handle_ok w lib ->
  at_most_one_call (baml_version E lib out_ptr out_len w) w /\
  at_most_one_call
    (baml_create_runtime E lib root_path src_files_json env_vars_json w) w /\
  at_most_one_call (baml_destroy_runtime lib runtime w) w /\
  at_most_one_call
    (baml_call_function E lib runtime function_name encoded_args args_len
       call_id out_ptr out_len w) w /\
  at_most_one_call
    (baml_call_function_stream E lib runtime function_name encoded_args
       args_len call_id out_ptr out_len w) w /\
  at_most_one_call
    (baml_call_object_constructor E lib encoded_args args_len
       out_ptr out_len w) w /\
  at_most_one_call
    (baml_call_object_method E lib runtime encoded_args args_len
       out_ptr out_len w) w /\
  at_most_one_call (baml_free_buffer lib ptr len w) w /\
  at_most_one_call
    (baml_register_callbacks lib result_cb error_cb tick_cb w) w.
Proof.
  intros [-> | [L HL]].
  - rewrite version_null, create_runtime_null, destroy_runtime_null,
      call_function_null, call_function_stream_null,
      call_object_constructor_null, call_object_method_null,
      free_buffer_null, register_callbacks_null.
    repeat split; first [apply safe_write_null | apply safe_ret].
  - rewrite (version_live _ _ _ _ _ _ HL),
      (create_runtime_live _ _ _ _ _ _ _ HL),
      (destroy_runtime_live _ _ _ _ HL),
      (call_function_live _ _ _ _ _ _ _ _ _ _ _ HL),
      (call_function_stream_live _ _ _ _ _ _ _ _ _ _ _ HL),
      (call_object_constructor_live _ _ _ _ _ _ _ _ HL),
      (call_object_method_live _ _ _ _ _ _ _ _ _ HL),
      (free_buffer_live _ _ _ _ _ HL),
      (register_callbacks_live _ _ _ _ _ _ HL).
    repeat split;
      match goal with
      | |- at_most_one_call (if ?g then _ else _) _ =>
          destruct g eqn:Hg;
          [ first [apply safe_write_null | apply safe_ret]
          | guard_split Hg;
            first [ now apply safe_call_and_store
                  | now apply safe_call_ptr
                  | now apply safe_call_void ] ]
      end.
Qed.

Lemma handle_operations_safe_witness :
  handle_ok full_loaded 1 /\
  at_most_one_call (baml_version full_env 1 50 51 full_loaded) full_loaded.
Proof.
  assert (H : handle_ok full_loaded 1)
    by (right; exists full_library; exact full_live).
  split; [exact H |].
  exact (proj1 (handle_operations_safe full_env full_loaded
                  1 9 0 0 0 8 7 6 42 50 51 777 5 301 302 303 H)).
Defined.

(** ** Dangling handles *)

Lemma bind_none {A B} (m : M A) (k : A -> M B) w :
  m w = None -> bind m k w = None.
Proof. intros H. unfold bind. now rewrite H. Qed.

Lemma orM_none (g b : M bool) w : g w = None -> orM g b w = None.
Proof. intros H. unfold orM. now apply bind_none. Qed.

Lemma field_dangling f lib w : heap w !! lib = None -> field f lib w = None.
Proof. intros H. unfold field. now rewrite H. Qed.

Lemma guard_dangling f lib w :
  lib <> 0 -> heap w !! lib = None ->
  orM (ret (is_null lib)) (absent f lib) w = None.
Proof.
  intros Hlib H. unfold orM, bind at 1, ret. rewrite (is_null_false _ Hlib).
  unfold absent. apply bind_none. now apply field_dangling.
Qed.

(** Closes [op ... w = None] for an operation whose validation starts by
    reading through a dangling handle. *)
Ltac dangling Hlib H :=
  apply bind_none;
  repeat first [exact (guard_dangling _ _ _ Hlib H) | apply orM_none].

(** X5. A non-null handle that is not a live wrapper is undefined
    behaviour for every function that takes a handle: each one reads the
    struct right after its null check, before looking at any other
    argument.  The handle of a successful load is in that state as soon as
    it has been unloaded, so neither [baml_library_is_loaded], nor a
    second [baml_library_unload], nor any call may be made on it. *)
Theorem dangling_handle_undefined (E : Env) :
  (forall w lib runtime root_path src_files_json env_vars_json
          function_name encoded_args args_len call_id out_ptr out_len
          ptr len result_cb error_cb tick_cb,
     lib <> 0 -> heap w !! lib = None ->
     baml_library_is_loaded lib w = None /\
     baml_library_unload lib w = None /\
     baml_version E lib out_ptr out_len w = None /\
     baml_create_runtime E lib root_path src_files_json env_vars_json w
     = None /\
     baml_destroy_runtime lib runtime w = None /\
     baml_call_function E lib runtime function_name encoded_args args_len
       call_id out_ptr out_len w = None /\
     baml_call_function_stream E lib runtime function_name encoded_args
       args_len call_id out_ptr out_len w = None /\
     baml_call_object_constructor E lib encoded_args args_len
       out_ptr out_len w = None /\
     baml_call_object_method E lib runtime encoded_args args_len
       out_ptr out_len w = None /\
     baml_free_buffer lib ptr len w = None /\
     baml_register_callbacks lib result_cb error_cb tick_cb w = None) /\
  (forall path w lib w1 w2,
     baml_library_load E path w = Some (lib, w1) -> lib <> 0 ->
     baml_library_unload lib w1 = Some (tt, w2) ->
     heap w2 !! lib = None /\
     baml_library_is_loaded lib w2 = None /\
     baml_library_unload lib w2 = None).
Proof.
  assert (Hgen : forall w lib, lib <> 0 -> heap w !! lib = None ->
            baml_library_is_loaded lib w = None /\
            baml_library_unload lib w = None).
  { intros w lib Hlib H.
    unfold baml_library_is_loaded, baml_library_unload.
    rewrite (is_null_false _ Hlib).
    split; apply bind_none; now apply field_dangling. }
  split.
  - intros w lib runtime root_path src_files_json env_vars_json
      function_name encoded_args args_len call_id out_ptr out_len
      ptr len result_cb error_cb tick_cb Hlib H.
    destruct (Hgen w lib Hlib H) as [H1 H2].
    split; [exact H1 |]. split; [exact H2 |].
    repeat split; dangling Hlib H.
  - intros path w lib w1 w2 Hload Hlib Hun.
    destruct (load_returns_handle E path w lib w1 Hload Hlib)
      as (p & -> & Hh & _ & _ & ->).
    rewrite (unload_live lib (table E w p)) in Hun
      by (auto; apply lookup_insert_eq).
    injection Hun as <-. cbn [heap].
    assert (Hgone : delete lib (<[lib := table E w p]> (heap w)) !! lib = None)
      by apply lookup_delete_eq.
    split; [exact Hgone |]. now apply Hgen.
Qed.

Lemma dangling_handle_undefined_witness :
  (7 <> 0 /\ heap stub_loaded !! 7 = None) /\
  baml_library_is_loaded 7 stub_loaded = None.
Proof.
  assert (H1 : 7 <> 0) by discriminate.
  assert (H2 : heap stub_loaded !! 7 = None) by reflexivity.
  split; [split; [exact H1 | exact H2] |].
  exact (proj1 (proj1 (dangling_handle_undefined stub_env)
                  stub_loaded 7 0 0 0 0 0 0 0 0 0 0 0 0 0 0 0 H1 H2)).
Defined.

(** ** The wrappers and the OS references, over whole runs *)

Lemma frames_ret {A} (a : A) : frames (ret a).
Proof. intros w a' w' [= <- <-]. auto. Qed.

Lemma frames_bind {A B} (m : M A) (k : A -> M B) :
  frames m -> (forall a, frames (k a)) -> frames (bind m k).
Proof.
  intros Hm Hk w b w'. unfold bind.
  destruct (m w) as [[a w1] |] eqn:H1; [| discriminate].
  intros H2. destruct (Hm _ _ _ H1) as [? ?], (Hk _ _ _ _ H2) as [? ?].
  split; congruence.
Qed.

Lemma frames_if {A} (c : bool) (m1 m2 : M A) :
  frames m1 -> frames m2 -> frames (if c then m1 else m2).
Proof. now destruct c. Qed.

Lemma frames_field f lib : frames (field f lib).
Proof.
  intros w a w'. unfold field. destruct (heap w !! lib); [| discriminate].
  intros [= <- <-]. auto.
Qed.

Lemma frames_poke p v : frames (poke p v).
Proof.
  intros w a w'. unfold poke. destruct (is_null p); [discriminate |].
  intros [= <- <-]. auto.
Qed.

Lemma frames_call_buf E fn args : frames (call_buf E fn args).
Proof.
  intros w a w'. unfold call_buf. destruct (is_null fn); [discriminate |].
  intros [= <- <-]. auto.
Qed.

Lemma frames_call_ptr E fn args : frames (call_ptr E fn args).
Proof.
  intros w a w'. unfold call_ptr. destruct (is_null fn); [discriminate |].
  intros [= <- <-]. auto.
Qed.

Lemma frames_call_void fn args : frames (call_void fn args).
Proof.
  intros w a w'. unfold call_void. destruct (is_null fn); [discriminate |].
  intros [= <- <-]. auto.
Qed.

(** Decomposes a computation built from the primitives that do not touch
    the wrappers or the OS references. *)
Ltac frames_auto :=
  repeat first
    [ apply frames_ret | apply frames_field | apply frames_poke
    | apply frames_call_buf | apply frames_call_ptr | apply frames_call_void
    | apply frames_bind; [| intros ?] | apply frames_if ].

Lemma frames_dispatch E lib runtime root_path src_files_json env_vars_json
    function_name encoded_args args_len call_id out_ptr out_len
    ptr len result_cb error_cb tick_cb :
  frames (baml_library_is_loaded lib) /\
  frames (baml_version E lib out_ptr out_len) /\
  frames (baml_create_runtime E lib root_path src_files_json env_vars_json) /\
  frames (baml_destroy_runtime lib runtime) /\
  frames (baml_call_function E lib runtime function_name encoded_args
            args_len call_id out_ptr out_len) /\
  frames (baml_call_function_stream E lib runtime function_name encoded_args
            args_len call_id out_ptr out_len) /\
  frames (baml_call_object_constructor E lib encoded_args args_len
            out_ptr out_len) /\
  frames (baml_call_object_method E lib runtime encoded_args args_len
            out_ptr out_len) /\
  frames (baml_free_buffer lib ptr len) /\
  frames (baml_register_callbacks lib result_cb error_cb tick_cb).
Proof.
  unfold baml_library_is_loaded, baml_version, baml_create_runtime,
    baml_destroy_runtime, baml_call_function, baml_call_function_stream,
    baml_call_object_constructor, baml_call_object_method, baml_free_buffer,
    baml_register_callbacks, write_null, write_result, when, orM, absent.
  repeat match goal with |- _ /\ _ => split end; frames_auto.
Qed.

Lemma wrappers_of_insert_fresh hp a L h :
  hp !! a = None ->
  wrappers_of h (<[a := L]> hp) =
  if decide (handle L = h) then S (wrappers_of h hp) else wrappers_of h hp.
Proof.
  intros Hfree. unfold wrappers_of. rewrite map_filter_insert. cbn [snd].
  case_decide.
  - apply map_size_insert_None. apply map_lookup_filter_None_2. now left.
  - now rewrite (delete_id _ _ Hfree).
Qed.

Lemma wrappers_of_delete hp a L h :
  hp !! a = Some L ->
  wrappers_of h (delete a hp) =
  if decide (handle L = h) then pred (wrappers_of h hp) else wrappers_of h hp.
Proof.
  intros Hlive. unfold wrappers_of. rewrite map_filter_delete, map_size_delete.
  case_decide as Hh.
  - now rewrite (map_lookup_filter_Some_2 _ _ _ _ Hlive Hh).
  - rewrite (map_lookup_filter_None_2 (fun kv => handle kv.2 = h) hp a);
      [reflexivity |].
    right. intros x Hx. rewrite Hlive in Hx. injection Hx as <-. exact Hh.
Qed.

Lemma wrappers_of_live hp a L :
  hp !! a = Some L -> (1 <= wrappers_of (handle L) hp)%nat.
Proof.
  intros Hlive. unfold wrappers_of.
  assert (size (filter (fun kv : Z * BamlLibrary => handle kv.2 = handle L) hp)
          <> 0%nat).
  { apply (map_size_ne_0_lookup_2 _ a). exists L.
    now apply map_lookup_filter_Some_2. }
  lia.
Qed.

Lemma count_occ_remove_first l h h' :
  count_occ Z.eq_dec (remove_first h l) h' =
  if decide (h = h') then pred (count_occ Z.eq_dec l h')
  else count_occ Z.eq_dec l h'.
Proof.
  induction l as [| x l IH]; [now case_decide |].
  cbn [remove_first]. destruct (Z.eqb_spec x h) as [-> | Hx].
  - cbn [count_occ]. destruct (Z.eq_dec h h'); case_decide; congruence || lia.
  - cbn [count_occ]. rewrite IH.
    destruct (Z.eq_dec x h'); case_decide; try congruence; try lia.
Qed.

Lemma consistent_frame w w' :
  heap w' = heap w -> opened w' = opened w -> consistent w -> consistent w'.
Proof. unfold consistent. intros -> ->. auto. Qed.

Lemma consistent_load E path w lib w' :
  consistent w -> baml_library_load E path w = Some (lib, w') ->
  consistent w'.
Proof.
  intros Hc Hload. destruct (is_null_spec lib) as [-> | Hlib].
  - destruct (load_frame _ _ _ _ _ Hload) as (_ & _ & Hz).
    destruct (Hz eq_refl). now apply (consistent_frame w).
  - destruct (load_returns_handle E path w lib w' Hload Hlib)
      as (p & -> & Hh & Hm & Ha & ->).
    destruct Hc as (H0 & Hfull & Hcount).
    assert (Hfree : heap w !! lib = None) by (rewrite Ha; apply fresh_addr_free).
    apply mandatory_true in Hm.
    split; [| split]; cbn [heap opened].
    + rewrite lookup_insert_ne by exact Hlib. exact H0.
    + intros lib' L'. destruct (decide (lib = lib')) as [<- | Hne].
      * rewrite lookup_insert_eq. intros [= <-]. tauto.
      * rewrite lookup_insert_ne by exact Hne. apply Hfull.
    + intros h. rewrite (wrappers_of_insert_fresh _ _ _ _ Hfree).
      change (handle (table E w p)) with (open_answer E w p).
      cbn [count_occ]. specialize (Hcount h).
      destruct (Z.eq_dec (open_answer E w p) h); case_decide;
        try congruence; lia.
Qed.

Lemma consistent_unload lib w w' :
  consistent w -> baml_library_unload lib w = Some (tt, w') -> consistent w'.
Proof.
  intros Hc Hun. destruct (is_null_spec lib) as [-> | Hlib].
  { injection Hun as <-. exact Hc. }
  destruct (heap w !! lib) as [L |] eqn:HL.
  2:{ unfold baml_library_unload in Hun. rewrite (is_null_false _ Hlib) in Hun.
      now rewrite (bind_none _ _ _ (field_dangling _ _ _ HL)) in Hun. }
  rewrite (unload_live _ _ _ Hlib HL) in Hun. injection Hun as <-.
  destruct Hc as (H0 & Hfull & Hcount).
  destruct (Hfull _ _ HL) as (Hh & _ & _). rewrite (is_null_false _ Hh).
  split; [| split]; cbn [heap opened].
  - rewrite lookup_delete_ne by congruence. exact H0.
  - intros lib' L' HL'. apply lookup_delete_Some in HL' as [_ HL'].
    now apply (Hfull lib').
  - intros h. rewrite (wrappers_of_delete _ _ _ _ HL), count_occ_remove_first.
    specialize (Hcount h). case_decide; lia.
Qed.

Lemma consistent_load_default E plat w lib w' :
  consistent w -> baml_library_load_default E plat w = Some (lib, w') ->
  consistent w'.
Proof.
  intros Hc Hrun.
  destruct (load_default_run E plat w) as (lib0 & w0 & Hrun0 & Hcases).
  rewrite Hrun in Hrun0. injection Hrun0 as <- <-.
  destruct Hcases as [[_ Hf] | (_ & pre & p & post & wi & _ & Hpre & Hp)].
  - destruct (fails_on_frame _ _ _ _ Hf) as (_ & _ & Ho & Hh).
    now apply (consistent_frame w).
  - destruct (fails_on_frame _ _ _ _ Hpre) as (_ & _ & Ho & Hh).
    apply (consistent_load E (Some p) wi lib); [| exact Hp].
    now apply (consistent_frame w).
Qed.

Lemma consistent_step E w w' : consistent w -> api_step E w w' -> consistent w'.
Proof.
  intros Hc Hstep.
  pose proof (fun lib runtime a b c name args len id op ol ptr blen r e t =>
                frames_dispatch E lib runtime a b c name args len id op ol
                  ptr blen r e t) as Hfr.
  destruct Hstep as
    [ path lib H | plat lib H | lib H | lib b H | lib op ol H
    | lib a b c r H | lib rt H | lib rt nm ar ln id op ol H
    | lib rt nm ar ln id op ol H | lib ar ln op ol H | lib rt ar ln op ol H
    | lib ptr ln H | lib r e t H | m -> ].
  - exact (consistent_load _ _ _ _ _ Hc H).
  - exact (consistent_load_default _ _ _ _ _ Hc H).
  - exact (consistent_unload _ _ _ Hc H).
  - destruct (Hfr lib 0 0 0 0 0 0 0 0 0 0 0 0 0 0 0) as (F & _).
    destruct (F _ _ _ H). now apply (consistent_frame w).
  - destruct (Hfr lib 0 0 0 0 0 0 0 0 op ol 0 0 0 0 0) as (_ & F & _).
    destruct (F _ _ _ H). now apply (consistent_frame w).
  - destruct (Hfr lib 0 a b c 0 0 0 0 0 0 0 0 0 0 0) as (_ & _ & F & _).
    destruct (F _ _ _ H). now apply (consistent_frame w).
  - destruct (Hfr lib rt 0 0 0 0 0 0 0 0 0 0 0 0 0 0) as (_ & _ & _ & F & _).
    destruct (F _ _ _ H). now apply (consistent_frame w).
  - destruct (Hfr lib rt 0 0 0 nm ar ln id op ol 0 0 0 0 0)
      as (_ & _ & _ & _ & F & _).
    destruct (F _ _ _ H). now apply (consistent_frame w).
  - destruct (Hfr lib rt 0 0 0 nm ar ln id op ol 0 0 0 0 0)
      as (_ & _ & _ & _ & _ & F & _).
    destruct (F _ _ _ H). now apply (consistent_frame w).
  - destruct (Hfr lib 0 0 0 0 0 ar ln 0 op ol 0 0 0 0 0)
      as (_ & _ & _ & _ & _ & _ & F & _).
    destruct (F _ _ _ H). now apply (consistent_frame w).
  - destruct (Hfr lib rt 0 0 0 0 ar ln 0 op ol 0 0 0 0 0)
      as (_ & _ & _ & _ & _ & _ & _ & F & _).
    destruct (F _ _ _ H). now apply (consistent_frame w).
  - destruct (Hfr lib 0 0 0 0 0 0 0 0 0 0 ptr ln 0 0 0)
      as (_ & _ & _ & _ & _ & _ & _ & _ & F & _).
    destruct (F _ _ _ H). now apply (consistent_frame w).
  - destruct (Hfr lib 0 0 0 0 0 0 0 0 0 0 0 0 r e t)
      as (_ & _ & _ & _ & _ & _ & _ & _ & _ & F).
    destruct (F _ _ _ H). now apply (consistent_frame w).
  - now apply (consistent_frame w).
Qed.

Lemma reachable_consistent E w : reachable E w -> consistent w.
Proof.
  induction 1 as [| w w' _ IH Hstep].
  - split; [reflexivity |]. split.
    + intros lib L H. cbn in H. now rewrite lookup_empty in H.
    + intros h. unfold wrappers_of. cbn [heap empty_world].
      rewrite map_filter_empty, map_size_empty. lia.
  - exact (consistent_step E w w' IH Hstep).
Qed.

Lemma consistent_fully_loaded w lib L :
  consistent w -> heap w !! lib = Some L ->
  lib <> 0 /\ fully_loaded w lib /\
  baml_library_is_loaded lib w = Some (true, w).
Proof.
  intros (H0 & Hfull & Hcount) HL.
  assert (Hlib : lib <> 0) by (intros ->; congruence).
  destruct (Hfull _ _ HL) as (Hh & Hcr & Hcf).
  split; [exact Hlib |]. split.
  - exists L. repeat split; auto.
    apply list_elem_of_In, (count_occ_In Z.eq_dec).
    pose proof (wrappers_of_live _ _ _ HL). specialize (Hcount (handle L)). lia.
  - rewrite (is_loaded_live _ _ _ Hlib HL). now rewrite (is_null_false _ Hh).
Qed.

(** X6. In every world a process reaches from a fresh start by calls of
    the wrapper's functions (and writes to its own memory), in any number
    and order, every live wrapper is fully loaded: it is not at the null
    address, its OS handle is non-null and still held open, both mandatory
    symbols are resolved, and [baml_library_is_loaded] answers true on it.
    The process holds at least one reference to an OS handle per live
    wrapper that has it. *)
Theorem reachable_handles_fully_loaded (E : Env) (w : world) :
  reachable E w ->
  heap w !! 0 = None /\
  (forall lib L, heap w !! lib = Some L ->
     lib <> 0 /\ fully_loaded w lib /\
     baml_library_is_loaded lib w = Some (true, w)) /\
  (forall h, (wrappers_of h (heap w) <= count_occ Z.eq_dec (opened w) h)%nat).
Proof.
  intros Hr. pose proof (reachable_consistent E w Hr) as Hc.
  split; [apply Hc |]. split; [| apply Hc].
  intros lib L HL. now apply (consistent_fully_loaded w lib L).
Qed.

Lemma stub_reachable : reachable stub_env stub_loaded.
Proof.
  apply (reach_step stub_env empty_world); [apply reach_start |].
  exact (step_load stub_env empty_world stub_loaded _ _ stub_load).
Qed.

Lemma reachable_handles_fully_loaded_witness :
  reachable stub_env stub_loaded /\
  (1 <> 0 /\ fully_loaded stub_loaded 1 /\
   baml_library_is_loaded 1 stub_loaded = Some (true, stub_loaded)).
Proof.
  split; [exact stub_reachable |].
  exact (proj1 (proj2 (reachable_handles_fully_loaded stub_env stub_loaded
                         stub_reachable)) 1 stub_library stub_live).
Defined.

(** X7. Handles are independent.  In a world reached by calls of the
    wrapper's functions, unloading one live handle leaves every other live
    handle exactly as it was and still fully loaded, also when both were
    loaded from the same library and carry the same OS handle: the unload
    gives up one reference, and the other wrapper keeps its own. *)
Theorem unload_keeps_other_handles (E : Env) (w w' : world)
    (lib other : Z) (L : BamlLibrary) :
  reachable E w -> baml_library_unload lib w = Some (tt, w') ->
  other <> lib -> heap w !! other = Some L ->
  heap w' !! other = Some L /\ fully_loaded w' other /\
  baml_library_is_loaded other w' = Some (true, w').
Proof.
  intros Hr Hun Hne HL.
  assert (Hkept : heap w' !! other = Some L).
  { destruct (is_null_spec lib) as [-> | Hlib].
    - injection Hun as <-. exact HL.
    - destruct (heap w !! lib) as [L1 |] eqn:HL1.
      + rewrite (unload_live _ _ _ Hlib HL1) in Hun. injection Hun as <-.
        cbn [heap]. now rewrite lookup_delete_ne by congruence.
      + unfold baml_library_unload in Hun.
        rewrite (is_null_false _ Hlib) in Hun.
        now rewrite (bind_none _ _ _ (field_dangling _ _ _ HL1)) in Hun. }
  split; [exact Hkept |].
  assert (Hc : consistent w').
  { apply (consistent_unload lib w); [now apply (reachable_consistent E) | exact Hun]. }
  apply (consistent_fully_loaded w' other L Hc Hkept).
Qed.

Lemma stub_load_again :
  baml_library_load stub_env (Some "./libbaml_ffi.so"%string) stub_loaded
  = Some (2, stub_twice).
Proof. vm_compute. reflexivity. Qed.

Lemma stub_unload_first :
  baml_library_unload 1 stub_twice = Some (tt, stub_second_only).
Proof. vm_compute. reflexivity. Qed.

Lemma stub_twice_reachable : reachable stub_env stub_twice.
Proof.
  apply (reach_step stub_env stub_loaded); [exact stub_reachable |].
  exact (step_load stub_env stub_loaded stub_twice _ _ stub_load_again).
Qed.

Lemma unload_keeps_other_handles_witness :
  (reachable stub_env stub_twice /\
   baml_library_unload 1 stub_twice = Some (tt, stub_second_only) /\
   2 <> 1 /\ heap stub_twice !! 2 = Some stub_library) /\
  (heap stub_second_only !! 2 = Some stub_library /\
   fully_loaded stub_second_only 2 /\
   baml_library_is_loaded 2 stub_second_only = Some (true, stub_second_only)).
Proof.
  assert (H1 : 2 <> 1) by discriminate.
  assert (H2 : heap stub_twice !! 2 = Some stub_library) by reflexivity.
  split;
    [exact (conj stub_twice_reachable (conj stub_unload_first (conj H1 H2))) |].
  exact (unload_keeps_other_handles stub_env stub_twice stub_second_only
           1 2 stub_library stub_twice_reachable stub_unload_first H1 H2).
Defined.
